(** * BlenderFDS: the translation engine of [zzz_blenderfds/bl/extensions.py]

    A shallow embedding of the export ([to_fds]) and import ([from_fds])
    methods that the add-on attaches to Blender's [Object], [Material] and
    [Scene] types, and the properties of the engine proved over it. *)

From Stdlib Require Import Ascii.
From stdpp Require Import base list sorting strings gmap pretty.

(** ** Python's stable [list.sort(key=...)] and [sorted(..., key=...)] *)

(** Python compares the keys with [<] only and keeps equal keys in their
    original order.  A stable sort has one possible result, so the insertion
    sort below, which puts an element in front of the first element whose key
    is not smaller, computes what [list.sort] computes. *)
Module PySort.

Fixpoint insert_by {A K : Type} (ltb : K → K → bool) (key : A → K)
    (x : A) (l : list A) : list A :=
  match l with
  | [] => [x]
  | y :: ys => if ltb (key y) (key x) then y :: insert_by ltb key x ys
               else x :: y :: ys
  end.

Definition sort_by {A K : Type} (ltb : K → K → bool) (key : A → K)
    (l : list A) : list A :=
  foldr (insert_by ltb key) [] l.

(** [key_le ltb key a b]: the key of [b] is not smaller than that of [a]. *)
Definition key_le {A K : Type} (ltb : K → K → bool) (key : A → K)
    (a b : A) : Prop :=
  ltb (key b) (key a) = false.

(** Python orders [False < True]. *)
Definition bool_ltb (a b : bool) : bool := negb a && b.

End PySort.

(** ** The host data model *)

(** The line feed of Python's ["\n"]. *)
Definition NL : string := String "010"%char EmptyString.

(** [if s:] for a value that is a string or [None]. *)
Definition truthy (o : option string) : bool :=
  match o with
  | Some s => negb (bool_decide (s = ""))
  | None => false
  end.

(** The list that [if body: bodies.append(body)] adds to [bodies]. *)
Definition appended (o : option string) : list string :=
  match o with
  | Some s => if bool_decide (s = "") then [] else [s]
  | None => []
  end.

(** [bpy.types.Object]: the properties the engine reads and writes.
    [ob_id] is the identity of the data block ([ob.parent == self] compares
    identities), [ob_parent] the identity of the parent, if any. *)
Record Object := {
  ob_id : nat;
  ob_name : string;
  ob_type : string;
  ob_parent : option nat;
  ob_bf_export : bool;
  ob_bf_is_tmp : bool;
  ob_bf_namelist_cls : string;
  ob_bf_fyi : string;
  ob_draw_type : string;
  ob_show_transparent : bool
}.

(** [bpy.types.Material]. *)
Record Material := {
  ma_id : nat;
  ma_name : string;
  ma_bf_namelist_cls : string;
  ma_use_fake_user : bool
}.

(** [bpy.types.Scene]. *)
Record Scene := {
  sc_name : string;
  sc_bf_head_title : string;
  sc_bf_head_free_text : string;
  sc_unit_system : string;
  sc_render_engine : string
}.

(** What the engine sees of Blender: the scene [self] (also
    [context.scene]), [context.scene.objects] in insertion order,
    [bpy.data.materials] and the text store [bpy.data.texts]. *)
Record World := {
  scene : Scene;
  objects : list Object;
  materials : list Material;
  texts : gmap string string
}.

(** The element a namelist instance is bound to, as a value (export). *)
Inductive Element :=
  | ElScene (sc : Scene)
  | ElObject (ob : Object)
  | ElMaterial (ma : Material).

(** The element a namelist instance is bound to, as a reference into the
    world (import mutates it). *)
Inductive ElementRef :=
  | RefScene
  | RefObject (id : nat)
  | RefMaterial (id : nat).

(** The [bpy_type] attribute of a namelist class. *)
Inductive BpyType := TScene | TObject | TMaterial | TOther.

Global Instance BpyType_eq_dec : EqDecision BpyType.
Proof. solve_decision. Defined.

(** A token [(fds_label, fds_params, fds_original)] of [fds.to_py.tokenize];
    [fds_params] is a dict, of which only the keys are inspected here. *)
Record Token := {
  fds_label : string;
  fds_params : gmap string string;
  fds_original : string
}.

(** A class of the registry [BFNamelist.all] ([types.BFNamelist] is not part
    of the module): its [__name__], its FDS label, the Blender type it is
    bound to, its [enum_id], [bf_other.get("draw_type")], and its two
    codecs.  [nl_to_fds] is [BFNamelist.to_fds] of the instance on an
    element: a string or [None].  [nl_from_fds] is [BFNamelist.from_fds]: it
    mutates the world and either returns ([None]) or raises a [BFException],
    of which the engine reads [err.free_texts] only. *)
Record BFNamelist := {
  cls_name : string;
  cls_fds_label : option string;
  cls_bpy_type : BpyType;
  cls_enum_id : nat;
  cls_draw_type : option string;
  nl_to_fds : Element → option string;
  nl_from_fds :
    ElementRef → gmap string string → World → World * option (list string)
}.

(** The facts of the host and of the sibling modules that the engine reads
    and does not compute: [bl_info["version"]], [bpy.app.version_string],
    the formatted local time, [bpy.data.filepath], the formatted elapsed
    seconds, [fds.surf.predefined], the tokenizer [fds.to_py.tokenize]
    (tokens, or the [free_texts] of the [BFException] it raises), the fresh
    data blocks of [geometry.geom_utils] and the name that
    [bpy.data.texts.new] gives a new text. *)
Record Host := {
  bl_info_version : nat * nat * nat;
  app_version_string : string;
  strftime_now : string;
  data_filepath : string;
  elapsed_seconds : string;
  surf_predefined : list string;
  tokenize : string → list Token + list string;
  blank_object : Object;
  blank_material : Material;
  new_text_name : gmap string string → string
}.

(** The exceptions that leave the engine. *)
Inductive exn :=
  | BFException (msg : string)
  | ValueError (msg : string)
  | KeyError (key : string).

Global Instance exn_eq_dec : EqDecision exn.
Proof. solve_decision. Defined.

(** Record updates, one per assignment of the source. *)
Definition ob_set_bf_namelist_cls (v : string) (o : Object) : Object :=
  {| ob_id := ob_id o; ob_name := ob_name o; ob_type := ob_type o;
     ob_parent := ob_parent o; ob_bf_export := ob_bf_export o;
     ob_bf_is_tmp := ob_bf_is_tmp o; ob_bf_namelist_cls := v;
     ob_bf_fyi := ob_bf_fyi o; ob_draw_type := ob_draw_type o;
     ob_show_transparent := ob_show_transparent o |}.

Definition ob_set_draw_type (v : string) (o : Object) : Object :=
  {| ob_id := ob_id o; ob_name := ob_name o; ob_type := ob_type o;
     ob_parent := ob_parent o; ob_bf_export := ob_bf_export o;
     ob_bf_is_tmp := ob_bf_is_tmp o;
     ob_bf_namelist_cls := ob_bf_namelist_cls o;
     ob_bf_fyi := ob_bf_fyi o; ob_draw_type := v;
     ob_show_transparent := ob_show_transparent o |}.

Definition ob_set_show_transparent (v : bool) (o : Object) : Object :=
  {| ob_id := ob_id o; ob_name := ob_name o; ob_type := ob_type o;
     ob_parent := ob_parent o; ob_bf_export := ob_bf_export o;
     ob_bf_is_tmp := ob_bf_is_tmp o;
     ob_bf_namelist_cls := ob_bf_namelist_cls o;
     ob_bf_fyi := ob_bf_fyi o; ob_draw_type := ob_draw_type o;
     ob_show_transparent := v |}.

Definition ob_set_identity (id : nat) (name : string) (o : Object) : Object :=
  {| ob_id := id; ob_name := name; ob_type := ob_type o;
     ob_parent := ob_parent o; ob_bf_export := ob_bf_export o;
     ob_bf_is_tmp := ob_bf_is_tmp o;
     ob_bf_namelist_cls := ob_bf_namelist_cls o;
     ob_bf_fyi := ob_bf_fyi o; ob_draw_type := ob_draw_type o;
     ob_show_transparent := ob_show_transparent o |}.

Definition ma_set_bf_namelist_cls (v : string) (m : Material) : Material :=
  {| ma_id := ma_id m; ma_name := ma_name m; ma_bf_namelist_cls := v;
     ma_use_fake_user := ma_use_fake_user m |}.

Definition ma_set_use_fake_user (v : bool) (m : Material) : Material :=
  {| ma_id := ma_id m; ma_name := ma_name m;
     ma_bf_namelist_cls := ma_bf_namelist_cls m; ma_use_fake_user := v |}.

Definition ma_set_identity (id : nat) (name : string) (m : Material)
  : Material :=
  {| ma_id := id; ma_name := name;
     ma_bf_namelist_cls := ma_bf_namelist_cls m;
     ma_use_fake_user := ma_use_fake_user m |}.

Definition sc_set_bf_head_free_text (v : string) (s : Scene) : Scene :=
  {| sc_name := sc_name s; sc_bf_head_title := sc_bf_head_title s;
     sc_bf_head_free_text := v; sc_unit_system := sc_unit_system s;
     sc_render_engine := sc_render_engine s |}.

Definition sc_set_appearance (units engine : string) (s : Scene) : Scene :=
  {| sc_name := sc_name s; sc_bf_head_title := sc_bf_head_title s;
     sc_bf_head_free_text := sc_bf_head_free_text s;
     sc_unit_system := units; sc_render_engine := engine |}.

Definition with_scene (f : Scene → Scene) (w : World) : World :=
  {| scene := f (scene w); objects := objects w; materials := materials w;
     texts := texts w |}.

Definition with_objects (f : list Object → list Object) (w : World) : World :=
  {| scene := scene w; objects := f (objects w); materials := materials w;
     texts := texts w |}.

Definition with_materials (f : list Material → list Material) (w : World)
  : World :=
  {| scene := scene w; objects := objects w; materials := f (materials w);
     texts := texts w |}.

Definition with_texts (f : gmap string string → gmap string string)
    (w : World) : World :=
  {| scene := scene w; objects := objects w; materials := materials w;
     texts := f (texts w) |}.

(** Assignment to an attribute of the object (material) with identity [id]. *)
Definition update_object (id : nat) (f : Object → Object) : World → World :=
  with_objects (fmap (λ o, if bool_decide (ob_id o = id) then f o else o)).

Definition update_material (id : nat) (f : Material → Material)
  : World → World :=
  with_materials (fmap (λ m, if bool_decide (ma_id m = id) then f m else m)).

(** ** Calls that mutate the world and may raise *)

(** The result of a call: it returned [a], or raised [e]; either way the
    world as the call left it. *)
Inductive Outcome (A : Type) :=
  | Returned (a : A) (w : World)
  | Raised (e : exn) (w : World).
Global Arguments Returned {A} a w.
Global Arguments Raised {A} e w.

Definition outcome_world {A} (o : Outcome A) : World :=
  match o with Returned _ w | Raised _ w => w end.

(** What the caller sees of a call: the value returned or the exception. *)
Definition outcome_result {A} (o : Outcome A) : exn + A :=
  match o with Returned a _ => inr a | Raised e _ => inl e end.

Definition M (A : Type) : Type := World → Outcome A.

Definition ret {A} (a : A) : M A := λ w, Returned a w.
Definition raise {A} (e : exn) : M A := λ w, Raised e w.
Definition bind {A B} (c : M A) (k : A → M B) : M B :=
  λ w, match c w with
       | Returned a w' => k a w'
       | Raised e w' => Raised e w'
       end.
Definition get_world : M World := λ w, Returned w w.
Definition modify (f : World → World) : M unit := λ w, Returned tt (f w).

Global Instance M_ret : MRet M := @ret.
Global Instance M_bind : MBind M := λ A B k c, bind c k.

(** ** The engine *)

Section Engine.
Context (host : Host).
(** [BFNamelist.all], in the order in which iterating over it yields the
    classes. *)
Context (registry : list BFNamelist).

(** Modelled from the spec: [BFNamelist.all.get(name)], the lookup of the
    registry "keyed by namelist-class string"; [None] when no class has
    this name. *)
Definition registry_get (name : string) : option BFNamelist :=
  find (λ c, bool_decide (cls_name c = name)) registry.

(** Modelled from the spec: [BFNamelist.all.get_by_fds_label(label)], the
    lookup of the registry "by the textual label it represents in the
    external format"; [None] when no class has this label. *)
Definition registry_get_by_fds_label (label : string) : option BFNamelist :=
  find (λ c, bool_decide (cls_fds_label c = Some label)) registry.

(** *** [BFObject] *)

(** [BFObject.bf_namelist]: the class whose instance on [self] is
    returned, or [None]. *)
Definition Object_bf_namelist (self : Object) : option BFNamelist :=
  if bool_decide (ob_type self ≠ "MESH") || ob_bf_is_tmp self then None
  else registry_get (ob_bf_namelist_cls self).

(** [BFObject.set_default_appearance]. *)
Definition Object_set_default_appearance (self : Object) : Object :=
  match Object_bf_namelist self with
  | None => self
  | Some bf_namelist =>
      let self :=
        if truthy (cls_draw_type bf_namelist)
        then ob_set_draw_type (default "" (cls_draw_type bf_namelist)) self
        else self in
      ob_set_show_transparent true self
  end.

(** [BFObject._myself_to_fds]. *)
Definition Object_myself_to_fds (self : Object) : list string :=
  if ob_bf_export self then
    if bool_decide (ob_type self = "MESH") then
      match Object_bf_namelist self with
      | Some bf_namelist => appended (nl_to_fds bf_namelist (ElObject self))
      | None => []
      end
    else if bool_decide (ob_type self = "EMPTY") then
      ["! -- " +:+ ob_name self +:+ ": " +:+ ob_bf_fyi self +:+ NL]
    else []
  else [].

(** [[ob for ob in context.scene.objects if ob.parent == self]]; [self] is
    the identity of the parent, [None] for the call
    [Object._children_to_fds(self=None, ...)] of the scene. *)
Definition children_of (objs : list Object) (self : option nat)
  : list Object :=
  filter (λ ob, ob_parent ob = self) objs.

(** The key [lambda k: k.bf_namelist_cls != ("ON_MESH")]. *)
Definition not_ON_MESH (k : Object) : bool :=
  bool_decide (ob_bf_namelist_cls k ≠ "ON_MESH").

(** The list [children_obs] of [BFObject._children_to_fds] after its two
    sorts, by name and then by the key above. *)
Definition children_obs (objs : list Object) (self : option nat)
  : list Object :=
  PySort.sort_by PySort.bool_ltb not_ON_MESH
    (PySort.sort_by String.ltb ob_name (children_of objs self)).

(** The tail of [_children_to_fds]: the truthy bodies, and one ["\n"]
    after them when there is any. *)
Definition close_bodies (bodies : list string) : list string :=
  match bodies with
  | [] => []
  | _ => bodies ++ [NL]
  end.

(** [BFObject.to_fds], given what [self._children_to_fds(context)]
    returns. *)
Definition Object_to_fds_with
    (children_to_fds : option nat → option (list string))
    (self : Object) (with_children : bool) : option string :=
  let bodies := Object_myself_to_fds self in
  if with_children then
    cs ← children_to_fds (Some (ob_id self));
    Some (String.concat "" (bodies ++ cs))
  else Some (String.concat "" bodies).

(** [BFObject._children_to_fds].  The method and [to_fds] call each other
    down the parent relation; [fuel] bounds the depth of the calls, and
    [None] is the recursion that has not ended within it. *)
Fixpoint Object_children_to_fds (fuel : nat) (objs : list Object)
    (self : option nat) : option (list string) :=
  match fuel with
  | 0 => None
  | S fuel =>
      bodies ← mapM
        (λ ob, Object_to_fds_with (Object_children_to_fds fuel objs) ob true)
        (children_obs objs self);
      Some (close_bodies (filter (λ body, body ≠ "") bodies))
  end.

(** [BFObject.to_fds]. *)
Definition Object_to_fds (fuel : nat) (objs : list Object) (self : Object)
    (with_children : bool) : option string :=
  Object_to_fds_with (Object_children_to_fds fuel objs) self with_children.

(** *** [BFMaterial] *)

(** [BFMaterial.bf_namelist]. *)
Definition Material_bf_namelist (self : Material) : option BFNamelist :=
  registry_get (ma_bf_namelist_cls self).

(** [BFMaterial.set_default_appearance]. *)
Definition Material_set_default_appearance (self : Material) : Material :=
  ma_set_use_fake_user true self.

(** [BFMaterial.to_fds]. *)
Definition Material_to_fds (self : Material) : option string :=
  if bool_decide (ma_name self ∉ surf_predefined host) then
    match Material_bf_namelist self with
    | Some bf_namelist => nl_to_fds bf_namelist (ElMaterial self)
    | None => None
    end
  else None.

(** *** [BFScene]: export *)

(** [BFScene.bf_namelists]: the classes whose instances on [self] are
    returned, in that order. *)
Definition Scene_bf_namelists : list BFNamelist :=
  PySort.sort_by Nat.ltb cls_enum_id
    (filter (λ c, cls_bpy_type c = TScene) registry).

(** [BFScene.set_default_appearance]. *)
Definition Scene_set_default_appearance (self : Scene) : Scene :=
  sc_set_appearance "METRIC" "CYCLES" self.

(** [BFScene._myself_to_fds]. *)
Definition Scene_myself_to_fds (self : Scene) : list string :=
  close_bodies
    (Scene_bf_namelists ≫= λ bf_namelist,
       appended (nl_to_fds bf_namelist (ElScene self))).

(** [BFScene._children_to_fds]. *)
Definition Scene_children_to_fds (fuel : nat) (w : World)
  : option (list string) :=
  let mas := PySort.sort_by String.ltb ma_name (materials w) in
  obs ← Object_children_to_fds fuel (objects w) None;
  Some ([NL +:+ "! --- Boundary conditions (from Blender Materials)" +:+ NL]
        ++ (mas ≫= λ ma, appended (Material_to_fds ma))
        ++ [NL +:+ "! --- Geometric entities (from Blender Objects)" +:+ NL]
        ++ obs).

(** [BFScene._header_to_fds]. *)
Definition Scene_header_to_fds (self : Scene) : list string :=
  let '(v0, v1, v2) := bl_info_version host in
  [ "! Generated by BlenderFDS "
      +:+ (pretty v0 +:+ "." +:+ pretty v1 +:+ "." +:+ pretty v2)
      +:+ " on Blender " +:+ app_version_string host +:+ NL;
    "! Case: " +:+ sc_name self +:+ " (from Blender Scene)" +:+ NL;
    "! Description: " +:+ sc_bf_head_title self +:+ NL;
    "! Date: " +:+ strftime_now host +:+ NL;
    "! File: " +:+ data_filepath host +:+ NL +:+ NL ].

(** The slice [s[-1:]]. *)
Fixpoint last_char (s : string) : string :=
  match s with
  | EmptyString => ""
  | String a EmptyString => String a EmptyString
  | String _ s' => last_char s'
  end.

(** [bpy.data.texts[name].as_string()]: a [KeyError] when there is no
    text of this name. *)
Definition texts_as_string (name : string) : M string :=
  w ← get_world;
  match texts w !! name with
  | Some content => ret content
  | None => raise (KeyError name)
  end.

(** [BFScene._free_text_to_fds]. *)
Definition Scene_free_text_to_fds : M (list string) :=
  w ← get_world;
  let name := sc_bf_head_free_text (scene w) in
  if bool_decide (name ≠ "") then
    free_text ← texts_as_string name;
    if bool_decide (free_text = "") then ret []
    else
      let bodies := ["! --- Free text: '" +:+ name +:+ "'" +:+ NL] in
      free_text' ← texts_as_string name;
      let bodies := bodies ++ [free_text'] in
      if bool_decide (last_char free_text' ≠ NL)
      then ret (bodies ++ [NL])
      else ret bodies
  else ret [].

(** The last line of a full case; the seconds are formatted by the
    host. *)
Definition tail_line : string :=
  "&TAIL /" +:+ NL +:+ "! Generated in " +:+ elapsed_seconds host +:+ " s.".

(** [BFScene.to_fds]; [None] is the recursion over the objects that has
    not ended within [fuel]. *)
Definition Scene_to_fds (fuel : nat) (with_children : bool) (w : World)
  : option (Outcome string) :=
  let bodies :=
    if with_children then Scene_header_to_fds (scene w) else [] in
  let bodies := bodies ++ Scene_myself_to_fds (scene w) in
  match Scene_free_text_to_fds w with
  | Raised e w' => Some (Raised e w')
  | Returned free_text w' =>
      let bodies := bodies ++ free_text in
      if with_children then
        children ← Scene_children_to_fds fuel w';
        Some (Returned
                (String.concat "" (bodies ++ children ++ [tail_line])) w')
      else Some (Returned (String.concat "" bodies) w')
  end.
(** *** [BFScene]: import *)

(** The geometry keys of [_get_imported_bf_namelist_cls]. *)
Definition geometry_labels : list string := ["XB"; "XYZ"; "PBX"; "PBY"; "PBZ"].

(** [any(label in fds_params for label in (...))]. *)
Definition has_geometry (fds_params : gmap string string) : bool :=
  existsb (λ label, bool_decide (is_Some (fds_params !! label)))
    geometry_labels.

(** [BFNamelist.all[name]]: a [KeyError] when no class has this name. *)
Definition registry_getitem (name : string) : M BFNamelist :=
  match registry_get name with
  | Some c => ret c
  | None => raise (KeyError name)
  end.

(** [BFScene._get_imported_bf_namelist_cls]. *)
Definition Scene_get_imported_bf_namelist_cls (fds_label : string)
    (fds_params : gmap string string) : M (option BFNamelist) :=
  match registry_get_by_fds_label fds_label with
  | Some bf_namelist_cls => ret (Some bf_namelist_cls)
  | None =>
      if has_geometry fds_params then
        bf_namelist_cls ← registry_getitem "ON_free";
        ret (Some bf_namelist_cls)
      else ret None
  end.

Definition fresh_id (ids : list nat) : nat := S (max_list ids).

(** Modelled from the spec: [geometry.geom_utils.get_new_object(context,
    scene, name)], which is to "create a new object entity named" [name]:
    a new data block of the host's defaults, linked last into the
    scene's objects. *)
Definition get_new_object (name : string) : M nat :=
  w ← get_world;
  let id := fresh_id (ob_id <$> objects w) in
  modify (with_objects
            (λ obs, obs ++ [ob_set_identity id name (blank_object host)]));;
  ret id.

(** Modelled from the spec: [geometry.geom_utils.get_new_material(context,
    name)], which is to "create a new material entity named" [name]: a new
    data block of the host's defaults, last in [bpy.data.materials]. *)
Definition get_new_material (name : string) : M nat :=
  w ← get_world;
  let id := fresh_id (ma_id <$> materials w) in
  modify (with_materials
            (λ mas, mas ++ [ma_set_identity id name (blank_material host)]));;
  ret id.

(** [BFScene._get_imported_element]. *)
Definition Scene_get_imported_element (bf_namelist_cls : BFNamelist)
    (fds_label : string) : M ElementRef :=
  match cls_bpy_type bf_namelist_cls with
  | TScene =>
      modify (with_scene Scene_set_default_appearance);;
      ret RefScene
  | TObject =>
      id ← get_new_object ("New " +:+ fds_label);
      modify (update_object id
                (ob_set_bf_namelist_cls (cls_name bf_namelist_cls)));;
      modify (update_object id Object_set_default_appearance);;
      ret (RefObject id)
  | TMaterial =>
      id ← get_new_material ("New " +:+ fds_label);
      modify (update_material id (ma_set_bf_namelist_cls "MN_SURF"));;
      modify (update_material id Material_set_default_appearance);;
      ret (RefMaterial id)
  | TOther =>
      raise (ValueError "BFDS: BFScene.from_fds: Unrecognized namelist type!")
  end.

(** Modelled from the spec: [fds.head.set_free_text_file(context, scene)],
    which gets the scene's free-text resource, "creating that resource if
    absent": when the scene names no text of the store, a new empty text
    is made and the scene made to name it.  The name of the resource is
    returned. *)
Definition set_free_text_file : M string :=
  w ← get_world;
  let name := sc_bf_head_free_text (scene w) in
  if bool_decide (name ≠ "") && bool_decide (is_Some (texts w !! name))
  then ret name
  else
    let name := new_text_name host (texts w) in
    modify (with_texts (insert name ""));;
    modify (with_scene (sc_set_bf_head_free_text name));;
    ret name.

(** [bpy.data.texts[name].from_string(content)]. *)
Definition texts_from_string (name content : string) : M unit :=
  w ← get_world;
  match texts w !! name with
  | Some _ => modify (with_texts (insert name content))
  | None => raise (KeyError name)
  end.

(** [BFScene._save_imported_unmanaged_tokens]. *)
Definition Scene_save_imported_unmanaged_tokens (free_texts : list string)
  : M unit :=
  bf_head_free_text ← set_free_text_file;
  old_free_texts ← texts_as_string bf_head_free_text;
  let free_texts :=
    if bool_decide (old_free_texts ≠ "")
    then free_texts ++ [old_free_texts] else free_texts in
  texts_from_string bf_head_free_text (String.concat NL free_texts).

(** The key of [sorted(tokens, key=lambda k: k[0] != ("SURF_ID"))]. *)
Definition not_SURF_ID (k : Token) : bool :=
  bool_decide (fds_label k ≠ "SURF_ID").

(** The order in which the loop of [from_fds] takes the tokens. *)
Definition import_order (tokens : list Token) : list Token :=
  PySort.sort_by PySort.bool_ltb not_SURF_ID tokens.

(** The locals [errors] and [free_texts] of [from_fds]. *)
Record Locals := {
  errors : bool;
  free_texts : list string
}.

(** [bf_namelist_cls(element).from_fds(context, fds_params)] inside its
    [try]: the [free_texts] of the [BFException], if one is raised. *)
Definition namelist_from_fds (bf_namelist_cls : BFNamelist)
    (element : ElementRef) (fds_params : gmap string string)
  : M (option (list string)) :=
  λ w, let '(w', err) := nl_from_fds bf_namelist_cls element fds_params w in
       Returned err w'.

(** The body of the loop of [from_fds]. *)
Definition import_token (st : Locals) (token : Token) : M Locals :=
  bf_namelist_cls ←
    Scene_get_imported_bf_namelist_cls (fds_label token) (fds_params token);
  match bf_namelist_cls with
  | Some bf_namelist_cls =>
      element ← Scene_get_imported_element bf_namelist_cls (fds_label token);
      err ← namelist_from_fds bf_namelist_cls element (fds_params token);
      match err with
      | Some err_free_texts =>
          ret {| errors := true;
                 free_texts := free_texts st ++ err_free_texts |}
      | None => ret st
      end
  | None =>
      ret {| errors := errors st;
             free_texts := free_texts st ++ [fds_original token] |}
  end.

(** The loop of [from_fds] over the tokens, in the order given. *)
Fixpoint import_tokens (st : Locals) (tokens : list Token) : M Locals :=
  match tokens with
  | [] => ret st
  | token :: tokens =>
      st ← import_token st token;
      import_tokens st tokens
  end.

Definition aggregate_error : exn :=
  BFException "Errors reported, see details in HEAD free text file.".

(** The first half of [from_fds]: the tokenizer inside its [try], then the
    loop inside [if tokens:].  [tokens] stays [None] when the tokenizer
    raises. *)
Definition import_loop (value : string) : M Locals :=
  let '(tokens, st) :=
    match tokenize host value with
    | inl tokens => (Some tokens, {| errors := false; free_texts := [] |})
    | inr err_free_texts =>
        (None, {| errors := true; free_texts := err_free_texts |})
    end in
  match tokens with
  | Some ((_ :: _) as tokens) => import_tokens st (import_order tokens)
  | _ => ret st
  end.

(** [BFScene.from_fds]. *)
Definition Scene_from_fds (value : string) : M unit :=
  st ← import_loop value;
  Scene_save_imported_unmanaged_tokens (free_texts st);;
  if errors st then raise aggregate_error else ret tt.
End Engine.

(** ** Printing *)

(** [BFObject.__str__], [BFMaterial.__str__] and [BFScene.__str__]. *)
Definition Object_str (self : Object) : string := "Object " +:+ ob_name self.
Definition Material_str (self : Material) : string :=
  "Material " +:+ ma_name self.
Definition Scene_str (self : Scene) : string := "Scene " +:+ sc_name self.

(** ** Temporary objects *)



(** [bpy.types.Object] with the attributes that [set_tmp], [show_tmp_obs]
    and [remove_tmp_obs] read and write besides those of [Object].
    [Matrix] is the host's matrix of floats, taken as it is;
    [bl_active_material] is the identity of the material. *)
Record BlObject (Matrix : Type) := {
  bl_ob : Object;
  bl_bf_has_tmp : bool;
  bl_hide : bool;
  bl_select : bool;
  bl_show_wire : bool;
  bl_active_material : option nat;
  bl_layers : list bool;
  bl_matrix_world : Matrix;
  bl_matrix_parent_inverse : Matrix
}.
Global Arguments bl_ob {Matrix} _.
Global Arguments bl_bf_has_tmp {Matrix} _.
Global Arguments bl_hide {Matrix} _.
Global Arguments bl_select {Matrix} _.
Global Arguments bl_show_wire {Matrix} _.
Global Arguments bl_active_material {Matrix} _.
Global Arguments bl_layers {Matrix} _.
Global Arguments bl_matrix_world {Matrix} _.
Global Arguments bl_matrix_parent_inverse {Matrix} _.

(** The objects of [bpy.data.objects], which are those of the scene, and
    [context.scene.objects.active]. *)
Record BlData (Matrix : Type) := {
  bl_objects : list (BlObject Matrix);
  bl_active : option nat
}.
Global Arguments bl_objects {Matrix} _.
Global Arguments bl_active {Matrix} _.

Section TmpObjects.
Context {Matrix : Type}.
(** [Matrix.inverted()]. *)
Context (inverted : Matrix → Matrix).

Definition bl_id (o : BlObject Matrix) : nat := ob_id (bl_ob o).


Definition bl_set_bf_has_tmp (v : bool) (o : BlObject Matrix)
  : BlObject Matrix :=
  {| bl_ob := bl_ob o; bl_bf_has_tmp := v;
     bl_hide := bl_hide o; bl_select := bl_select o;
     bl_show_wire := bl_show_wire o;
     bl_active_material := bl_active_material o; bl_layers := bl_layers o;
     bl_matrix_world := bl_matrix_world o;
     bl_matrix_parent_inverse := bl_matrix_parent_inverse o |}.

Definition bl_set_hide (v : bool) (o : BlObject Matrix) : BlObject Matrix :=
  {| bl_ob := bl_ob o; bl_bf_has_tmp := bl_bf_has_tmp o;
     bl_hide := v; bl_select := bl_select o;
     bl_show_wire := bl_show_wire o;
     bl_active_material := bl_active_material o; bl_layers := bl_layers o;
     bl_matrix_world := bl_matrix_world o;
     bl_matrix_parent_inverse := bl_matrix_parent_inverse o |}.

Definition bl_set_select (v : bool) (o : BlObject Matrix) : BlObject Matrix :=
  {| bl_ob := bl_ob o; bl_bf_has_tmp := bl_bf_has_tmp o;
     bl_hide := bl_hide o; bl_select := v;
     bl_show_wire := bl_show_wire o;
     bl_active_material := bl_active_material o; bl_layers := bl_layers o;
     bl_matrix_world := bl_matrix_world o;
     bl_matrix_parent_inverse := bl_matrix_parent_inverse o |}.





(** The object that a reference of identity [id] stands for; [None] when
    the object is not, or no longer, in [bpy.data.objects]. *)
Definition bl_lookup (id : nat) (d : BlData Matrix)
  : option (BlObject Matrix) :=
  find (λ o, bool_decide (bl_id o = id)) (bl_objects d).

(** Assignment to an attribute of the object of identity [id]. *)
Definition bl_update (id : nat) (f : BlObject Matrix → BlObject Matrix)
    (d : BlData Matrix) : BlData Matrix :=
  {| bl_objects :=
       (λ o, if bool_decide (bl_id o = id) then f o else o) <$> bl_objects d;
     bl_active := bl_active d |}.

(** [bpy.data.objects.remove(child, do_unlink=True)].  What the host does
    with the objects whose parent is removed is not modelled: they are
    left as they are. *)
Definition bl_remove (id : nat) (d : BlData Matrix) : BlData Matrix :=
  {| bl_objects := filter (λ o, bl_id o ≠ id) (bl_objects d);
     bl_active := bl_active d |}.

Definition bl_set_active (v : option nat) (d : BlData Matrix)
  : BlData Matrix :=
  {| bl_objects := bl_objects d; bl_active := v |}.

(** [self.children]: the objects whose parent is [self], as the tuple that
    the host returns when the attribute is read. *)
Definition bl_children (self : nat) (d : BlData Matrix)
  : list (BlObject Matrix) :=
  filter (λ o, ob_parent (bl_ob o) = Some self) (bl_objects d).


(** [BFObject.show_tmp_obs]. *)
Definition Object_show_tmp_obs (self : nat) (d : BlData Matrix)
  : BlData Matrix :=
  let d :=
    foldl (λ d child,
             if ob_bf_is_tmp (bl_ob child)
             then bl_update (bl_id child) (bl_set_hide false) d else d)
      d (bl_children self d) in
  let d := bl_update self (bl_set_select true) d in
  let d := bl_set_active (Some self) d in
  bl_update self (bl_set_hide true) d.

(** [BFObject.remove_tmp_obs].  [None] is the assignment to [self] after
    [self] itself has been removed. *)
Definition Object_remove_tmp_obs (self : nat) (d : BlData Matrix)
  : option (BlData Matrix) :=
  let d :=
    foldl (λ d child,
             if ob_bf_is_tmp (bl_ob child)
             then bl_remove (bl_id child) d else d)
      d (bl_children self d) in
  _ ← bl_lookup self d;
  let d := bl_update self (bl_set_bf_has_tmp false) d in
  Some (bl_update self (bl_set_hide false) d).
End TmpObjects.

(** ** A small case: registry, host and scene *)

Module Sample.

(** A namelist that writes [&LABEL ID='name' /] for its element. *)
Definition record_of (label : string) (el : Element) : option string :=
  let name := match el with
              | ElScene sc => sc_name sc
              | ElObject ob => ob_name ob
              | ElMaterial ma => ma_name ma
              end in
  Some ("&" +:+ label +:+ " ID='" +:+ name +:+ "' /" +:+ NL).

(** A [from_fds] that accepts every parameter. *)
Definition lenient (el : ElementRef) (params : gmap string string)
    (w : World) : World * option (list string) :=
  (w, None).

(** A [from_fds] that raises a [BFException] unless [XB] is given. *)
Definition needs_XB (el : ElementRef) (params : gmap string string)
    (w : World) : World * option (list string) :=
  if bool_decide (is_Some (params !! "XB")) then (w, None)
  else (w, Some ["ERROR: OBST without XB"]).

Definition namelist (name : string) (label : option string) (ty : BpyType)
    (enum : nat) (to_fds : Element → option string)
    (from_fds : ElementRef → gmap string string → World →
                World * option (list string)) : BFNamelist :=
  {| cls_name := name; cls_fds_label := label; cls_bpy_type := ty;
     cls_enum_id := enum; cls_draw_type := None;
     nl_to_fds := to_fds; nl_from_fds := from_fds |}.

Definition SN_TIME : BFNamelist :=
  namelist "SN_TIME" (Some "TIME") TScene 2 (record_of "TIME") lenient.
Definition SN_HEAD : BFNamelist :=
  namelist "SN_HEAD" (Some "HEAD") TScene 1 (record_of "HEAD") lenient.
Definition ON_OBST : BFNamelist :=
  namelist "ON_OBST" (Some "OBST") TObject 10 (record_of "OBST") needs_XB.
Definition ON_MESH : BFNamelist :=
  namelist "ON_MESH" (Some "MESH") TObject 11 (record_of "MESH") lenient.
Definition ON_free : BFNamelist :=
  {| cls_name := "ON_free"; cls_fds_label := None; cls_bpy_type := TObject;
     cls_enum_id := 12; cls_draw_type := Some "WIRE";
     nl_to_fds := record_of "FREE"; nl_from_fds := lenient |}.
Definition MN_SURF : BFNamelist :=
  namelist "MN_SURF" (Some "SURF_ID") TMaterial 20 (record_of "SURF") lenient.
(** A class bound to no Blender type of the engine. *)
Definition XN_LAMP : BFNamelist :=
  namelist "XN_LAMP" (Some "LAMP") TOther 30 (record_of "LAMP") lenient.

Definition registry : list BFNamelist :=
  [SN_TIME; SN_HEAD; ON_OBST; ON_MESH; ON_free; MN_SURF].

(** The same registry with the ill-bound class. *)
Definition ill_registry : list BFNamelist := XN_LAMP :: registry.

Definition object (id : nat) (name type : string) (parent : option nat)
    (export tmp : bool) (cls : string) : Object :=
  {| ob_id := id; ob_name := name; ob_type := type; ob_parent := parent;
     ob_bf_export := export; ob_bf_is_tmp := tmp; ob_bf_namelist_cls := cls;
     ob_bf_fyi := "note"; ob_draw_type := "TEXTURED";
     ob_show_transparent := false |}.

(** A disabled parent with three children, one of them a mesh definition,
    and a temporary mesh. *)
Definition room : Object := object 1 "Room" "MESH" None false false "ON_OBST".
Definition wall : Object := object 2 "Wall" "MESH" (Some 1) true false "ON_OBST".
Definition door : Object := object 3 "Door" "MESH" (Some 1) true false "ON_OBST".
Definition grid : Object := object 4 "Mesh" "MESH" (Some 1) true false "ON_MESH".
Definition ghost : Object := object 5 "Tmp" "MESH" (Some 2) true true "ON_OBST".

Definition objs : list Object := [room; wall; door; grid; ghost].

Definition rank (id : nat) : nat :=
  match id with
  | 1 => 2
  | 2 => 1
  | _ => 0
  end.

Definition surf (id : nat) (name : string) : Material :=
  {| ma_id := id; ma_name := name; ma_bf_namelist_cls := "MN_SURF";
     ma_use_fake_user := false |}.

Definition case_scene (free_text : string) : Scene :=
  {| sc_name := "case"; sc_bf_head_title := "A small case";
     sc_bf_head_free_text := free_text; sc_unit_system := "NONE";
     sc_render_engine := "BLENDER_RENDER" |}.

(** A scene whose free text ["HEAD free text"] holds ["OLD"]. *)
Definition world : World :=
  {| scene := case_scene "HEAD free text"; objects := objs;
     materials := [surf 1 "Steel"; surf 2 "INERT"];
     texts := {[ "HEAD free text" := "OLD" ]} |}.

(** A scene that names no free text. *)
Definition bare_world : World :=
  {| scene := case_scene ""; objects := []; materials := []; texts := ∅ |}.

(** A scene that names a text which is not in the store. *)
Definition dangling_world : World :=
  {| scene := case_scene "gone"; objects := []; materials := [];
     texts := ∅ |}.

Definition token (label : string) (params : list (string * string))
    (original : string) : Token :=
  {| fds_label := label; fds_params := list_to_map params;
     fds_original := original |}.

Definition tk_obst : Token :=
  token "OBST" [("XB", "0,1,0,1,0,1")] "&OBST XB=0,1,0,1,0,1 /".
Definition tk_obst_bad : Token := token "OBST" [("ID", "x")] "&OBST ID='x' /".
Definition tk_surf : Token := token "SURF_ID" [("ID", "foo")] "&SURF_ID ID='foo' /".
Definition tk_surf2 : Token := token "SURF_ID" [("ID", "bar")] "&SURF_ID ID='bar' /".
Definition tk_misc : Token := token "MISC" [("TMPA", "20.")] "&MISC TMPA=20. /".
Definition tk_devc : Token := token "DEVC" [("XYZ", "1,2,3")] "&DEVC XYZ=1,2,3 /".
Definition tk_lamp : Token := token "LAMP" [] "&LAMP /".

(** The tokenizer on a few texts; every other text is a parse error that
    carries the text. *)
Definition tokenizer (value : string) : list Token + list string :=
  if bool_decide (value = "new") then inl [tk_misc]
  else if bool_decide (value = "mixed")
  then inl [tk_obst; tk_surf; tk_misc; tk_devc; tk_surf2]
  else if bool_decide (value = "bad obst") then inl [tk_misc; tk_obst_bad; tk_devc]
  else if bool_decide (value = "lamp") then inl [tk_misc; tk_lamp]
  else if bool_decide (value = "") then inl []
  else inr [value].

Definition host : Host :=
  {| bl_info_version := (4, 0, 1);
     app_version_string := "2.78 (sub 0)";
     strftime_now := "Mon, 01 Jan 2018, 12:00:00";
     data_filepath := "/tmp/case.blend";
     elapsed_seconds := "0";
     surf_predefined := ["INERT"; "OPEN"; "MIRROR"];
     tokenize := tokenizer;
     blank_object := object 0 "" "MESH" None true false "";
     blank_material := surf 0 "";
     new_text_name := λ _, "HEAD free text" |}.

End Sample.

(** ** A small case with temporary objects *)

Module SampleTmp.


Definition bl (ob : Object) (has_tmp hide : bool) (world : Z) : BlObject Z :=
  {| bl_ob := ob; bl_bf_has_tmp := has_tmp; bl_hide := hide;
     bl_select := false; bl_show_wire := false;
     bl_active_material := Some (ob_id ob); bl_layers := [true; false];
     bl_matrix_world := world; bl_matrix_parent_inverse := 0%Z |}.

(** A shown room with a wall; a hidden room 6 with one temporary object 7
    and a door; a free mesh 9. *)
Definition room : BlObject Z :=
  bl (Sample.object 1 "Room" "MESH" None true false "ON_OBST") false false 5.
Definition wall : BlObject Z :=
  bl (Sample.object 2 "Wall" "MESH" (Some 1) true false "ON_OBST")
     false false 1.
Definition hall : BlObject Z :=
  bl (Sample.object 6 "Hall" "MESH" None true false "ON_OBST") true true 2.
Definition voxels : BlObject Z :=
  bl (Sample.object 7 "Hall_tmp" "MESH" (Some 6) true true "ON_OBST")
     false true 2.
Definition door : BlObject Z :=
  bl (Sample.object 8 "Door" "MESH" (Some 6) true false "ON_OBST")
     false false 3.
Definition cube : BlObject Z :=
  bl (Sample.object 9 "Cube" "MESH" None true false "ON_OBST") false false 4.

Definition data : BlData Z :=
  {| bl_objects := [room; wall; hall; voxels; door; cube];
     bl_active := Some 1 |}.

(** An object that is its own parent. *)
Definition knot : Object :=
  Sample.object 1 "Knot" "MESH" (Some 1) true false "ON_OBST".

(** An enabled [EMPTY] that is temporary. *)
Definition marker : Object :=
  Sample.object 3 "Marker" "EMPTY" None true true "ON_OBST".

(** The world of [Sample] with its objects and its materials listed the
    other way round. *)
Definition world_reversed : World :=
  {| scene := scene Sample.world; objects := reverse (objects Sample.world);
     materials := reverse (materials Sample.world);
     texts := texts Sample.world |}.

(** Two scene classes of one [enum_id] after a third of a smaller one. *)
Definition SN_MISC : BFNamelist :=
  Sample.namelist "SN_MISC" (Some "MISC") TScene 2
    (Sample.record_of "MISC") Sample.lenient.
Definition registry : list BFNamelist :=
  [Sample.SN_TIME; SN_MISC; Sample.ON_OBST; Sample.SN_HEAD].

End SampleTmp.

(** ** Vocabulary of the statements *)

(** The parent relation of [objs] has no cycle: [rank] decreases from a
    parent to its children.  Blender keeps its object hierarchy so. *)
Definition hierarchy_ranked (rank : nat → nat) (objs : list Object) : Prop :=
  ∀ ob p, ob ∈ objs → ob_parent ob = Some p → rank (ob_id ob) < rank p.

(** A bound on the depth of the calls under [self]. *)
Definition call_depth (rank : nat → nat) (objs : list Object)
    (self : option nat) : nat :=
  match self with
  | Some p => rank p
  | None => S (max_list ((rank ∘ ob_id) <$> objs))
  end.

(** The content of the scene's free-text resource, if the scene names a
    text of the store. *)
Definition free_text_resource (w : World) : option string :=
  texts w !! sc_bf_head_free_text (scene w).

(** The free text the scene holds before the merge: the content of the text
    it names, and the empty string when it names none. *)
Definition existing_free_text (w : World) : string :=
  let name := sc_bf_head_free_text (scene w) in
  if bool_decide (name ≠ "") then default "" (texts w !! name) else "".

(** What [_save_imported_unmanaged_tokens] writes: the fallback list, then
    the existing content when it is not empty, joined by line feeds. *)
Definition merged_existing_last (fallback : list string) (old : string)
  : string :=
  String.concat NL (fallback ++ (if bool_decide (old ≠ "") then [old] else [])).

(** The merge in the words of the specification: "existing content first,
    separated by newlines". *)
Definition merged_existing_first (fallback : list string) (old : string)
  : string :=
  String.concat NL ((if bool_decide (old ≠ "") then [old] else []) ++ fallback).

(** [x] is found verbatim in [s]. *)
Definition occurs_in (x s : string) : Prop :=
  ∃ pre post, s = pre +:+ x +:+ post.

(** A registry with which the import meets no configuration error: every
    class is bound to a scene, an object or a material, and the class
    ["ON_free"] that the engine names is there. *)
Definition registry_well_formed (registry : list BFNamelist) : Prop :=
  Forall (λ c, cls_bpy_type c ≠ TOther) registry
  ∧ is_Some (registry_get registry "ON_free").

(** The token is not managed: no class has its label and it has no
    geometry key. *)
Definition unmanaged (registry : list BFNamelist) (token : Token) : Prop :=
  registry_get_by_fds_label registry (fds_label token) = None
  ∧ has_geometry (fds_params token) = false.

(** The class that manages the token. *)
Definition managed_by (registry : list BFNamelist) (token : Token)
    (c : BFNamelist) : Prop :=
  registry_get_by_fds_label registry (fds_label token) = Some c
  ∨ (registry_get_by_fds_label registry (fds_label token) = None
     ∧ has_geometry (fds_params token) = true
     ∧ registry_get registry "ON_free" = Some c).

(** The tokens of [value] in the order of the loop; none when the tokenizer
    raises. *)
Definition tokens_in_order (host : Host) (value : string) : list Token :=
  match tokenize host value with
  | inl tokens => import_order tokens
  | inr _ => []
  end.

(** The locals of [from_fds] when the loop starts. *)
Definition initial_locals (host : Host) (value : string) : Locals :=
  match tokenize host value with
  | inl _ => {| errors := false; free_texts := [] |}
  | inr err_free_texts => {| errors := true; free_texts := err_free_texts |}
  end.

(** During the import of [value] from the world [w], the [from_fds] of the
    namelist of a managed token raises a [BFException] that carries
    [fragments]: the loop reaches [token] after the tokens [pre], the
    element of [token] is resolved, and the codec of its class raises. *)
Definition namelist_error (host : Host) (registry : list BFNamelist)
    (value : string) (w : World) (fragments : list string) : Prop :=
  ∃ pre token post st w1 c element w2 w3,
    tokens_in_order host value = pre ++ token :: post
    ∧ import_tokens host registry (initial_locals host value) pre w
        = Returned st w1
    ∧ managed_by registry token c
    ∧ Scene_get_imported_element host registry c (fds_label token) w1
        = Returned element w2
    ∧ nl_from_fds c element (fds_params token) w2 = (w3, Some fragments).

(** The tokenizer raises on [value] a [BFException] that carries
    [fragments]. *)
Definition parse_error (host : Host) (value : string)
    (fragments : list string) : Prop :=
  tokenize host value = inr fragments.

(** The object that the import makes for a token of label [fds_label]
    managed by the class [c]: the host's new object under the name
    ["New <label>"], linked to the class, in its default appearance. *)
Definition imported_object (host : Host) (registry : list BFNamelist)
    (c : BFNamelist) (fds_label : string) (id : nat) : Object :=
  Object_set_default_appearance registry
    (ob_set_bf_namelist_cls (cls_name c)
       (ob_set_identity id ("New " +:+ fds_label) (blank_object host))).

(** The material that the import makes for a token of label [fds_label]:
    the host's new material under the name ["New <label>"], linked to
    ["MN_SURF"], in its default appearance. *)
Definition imported_material (host : Host) (fds_label : string) (id : nat)
  : Material :=
  Material_set_default_appearance
    (ma_set_bf_namelist_cls "MN_SURF"
       (ma_set_identity id ("New " +:+ fds_label) (blank_material host))).

(** The materials that have a body in the export: the name is not
    predefined, the class is in the registry, and the namelist of the class
    gives for the material a text that is not empty. *)
Definition exportable_material (host : Host) (registry : list BFNamelist)
    (ma : Material) : Prop :=
  (ma_name ma ∉ surf_predefined host)
  ∧ match registry_get registry (ma_bf_namelist_cls ma) with
    | Some c =>
        match nl_to_fds c (ElMaterial ma) with
        | Some body => body ≠ ""
        | None => False
        end
    | None => False
    end.

Global Instance exportable_material_dec host registry ma :
  Decision (exportable_material host registry ma).
Proof.
  unfold exportable_material.
  destruct (registry_get registry (ma_bf_namelist_cls ma)) as [c|];
    [destruct (nl_to_fds c (ElMaterial ma))|]; apply _.
Defined.

(** A chain of objects down the parent relation: the first is a child of
    [self] ([None] for the objects without parent), each next one a child
    of the one before it.  The calls of [to_fds] and [_children_to_fds]
    nest once for each object of the chain. *)
Fixpoint descends (objs : list Object) (self : option nat)
    (chain : list Object) : Prop :=
  match chain with
  | [] => True
  | ob :: chain =>
      ob ∈ objs ∧ ob_parent ob = self
      ∧ descends objs (Some (ob_id ob)) chain
  end.

Global Instance descends_dec objs self chain :
  Decision (descends objs self chain).
Proof.
  assert (EqDecision Object) by solve_decision.
  revert self. induction chain as [|ob chain IH]; intros self; simpl.
  - apply _.
  - pose proof (IH (Some (ob_id ob))). apply _.
Defined.

(** The scene names a text that is not in the store. *)
Definition free_text_dangling (w : World) : Prop :=
  sc_bf_head_free_text (scene w) ≠ ""
  ∧ texts w !! sc_bf_head_free_text (scene w) = None.

(** [o] is a temporary object whose parent is [self]. *)
Definition tmp_child_of {Matrix : Type} (self : nat) (o : BlObject Matrix)
  : Prop :=
  ob_parent (bl_ob o) = Some self ∧ ob_bf_is_tmp (bl_ob o) = true.

Global Instance tmp_child_of_dec {Matrix : Type} self (o : BlObject Matrix) :
  Decision (tmp_child_of self o).
Proof. unfold tmp_child_of. apply _. Defined.


(** The Blender type of the class that manages the token, if any. *)
Definition token_bpy_type (registry : list BFNamelist) (token : Token)
  : option BpyType :=
  match registry_get_by_fds_label registry (fds_label token) with
  | Some c => Some (cls_bpy_type c)
  | None =>
      if has_geometry (fds_params token)
      then cls_bpy_type <$> registry_get registry "ON_free"
      else None
  end.

(** The [from_fds] of the namelists of the registry add and remove no
    object and no material: they write to their element. *)
Definition codecs_keep_collections (registry : list BFNamelist) : Prop :=
  ∀ c element params w,
    c ∈ registry →
    length (objects (nl_from_fds c element params w).1) = length (objects w)
    ∧ length (materials (nl_from_fds c element params w).1)
        = length (materials w).

(** ** Facts on the stable sort *)

Section SortFacts.
Context {A K : Type} (ltb : K → K → bool) (key : A → K).

Lemma insert_by_perm x l : PySort.insert_by ltb key x l ≡ₚ x :: l.
Proof.
  induction l as [|y ys IH]; simpl; [done|].
  destruct (ltb (key y) (key x)); [|done].
  rewrite IH. apply Permutation_swap.
Qed.

Lemma sort_by_perm l : PySort.sort_by ltb key l ≡ₚ l.
Proof.
  induction l as [|x l IH]; simpl; [done|].
  rewrite insert_by_perm. by rewrite IH.
Qed.

Lemma sort_by_elem_of x l : x ∈ PySort.sort_by ltb key l ↔ x ∈ l.
Proof. by rewrite sort_by_perm. Qed.

Lemma key_inj_on l x y :
  NoDup (key <$> l) → x ∈ l → y ∈ l → key x = key y → x = y.
Proof.
  induction l as [|z l IH]; simpl; [by intros _ ?%elem_of_nil|].
  rewrite NoDup_cons. intros [Hz Hnd] Hx Hy Hk.
  apply elem_of_cons in Hx as [->|Hx]; apply elem_of_cons in Hy as [->|Hy].
  - done.
  - destruct Hz. rewrite Hk. by apply list_elem_of_fmap_2.
  - destruct Hz. rewrite <-Hk. by apply list_elem_of_fmap_2.
  - by apply IH.
Qed.

Hypothesis ltb_asym : ∀ a b, ltb a b = true → ltb b a = false.
Hypothesis ltb_negtrans :
  ∀ a b c, ltb b a = false → ltb c b = false → ltb c a = false.

Lemma insert_by_sorted x l :
  StronglySorted (PySort.key_le ltb key) l →
  StronglySorted (PySort.key_le ltb key) (PySort.insert_by ltb key x l).
Proof.
  induction 1 as [|y ys Hys IH Hy]; simpl.
  { repeat constructor. }
  destruct (ltb (key y) (key x)) eqn:E.
  - constructor; [done|].
    rewrite insert_by_perm. constructor; [|done].
    by apply ltb_asym.
  - constructor; [by constructor|].
    constructor; [done|].
    eapply Forall_impl; [exact Hy|].
    intros z Hz. unfold PySort.key_le in *. by eapply ltb_negtrans.
Qed.

Lemma sort_by_sorted l :
  StronglySorted (PySort.key_le ltb key) (PySort.sort_by ltb key l).
Proof.
  induction l as [|x l IH]; simpl; [constructor|].
  by apply insert_by_sorted.
Qed.

(** With pairwise distinct keys the sorted list does not depend on the
    order of the input. *)
Hypothesis ltb_antisym : ∀ a b, ltb a b = false → ltb b a = false → a = b.

Lemma sort_by_perm_invariant l1 l2 :
  NoDup (key <$> l1) → l1 ≡ₚ l2 →
  PySort.sort_by ltb key l1 = PySort.sort_by ltb key l2.
Proof.
  intros Hnd Hp.
  apply (StronglySorted_unique_strong (PySort.key_le ltb key)).
  - intros x1 x2 Hx1 Hx2 H12 H21.
    pose proof (proj1 (sort_by_elem_of _ _) Hx1) as Hy1.
    pose proof (proj1 (sort_by_elem_of _ _) Hx2) as Hy2.
    rewrite <-Hp in Hy2.
    apply (key_inj_on l1); [done..|].
    by apply ltb_antisym.
  - apply sort_by_sorted.
  - apply sort_by_sorted.
  - by rewrite !sort_by_perm.
Qed.
End SortFacts.

Section BoolKey.
Context {A : Type} (key : A → bool).

Lemma insert_by_bool x (fs ts : list A) :
  Forall (λ y, key y = false) fs → Forall (λ y, key y = true) ts →
  PySort.insert_by PySort.bool_ltb key x (fs ++ ts) =
    if key x then fs ++ x :: ts else x :: fs ++ ts.
Proof.
  intros Hfs Hts. induction Hfs as [|y fs Hy _ IH]; simpl.
  - destruct Hts as [|z ts Hz _]; simpl; [by destruct (key x)|].
    rewrite Hz. by destruct (key x).
  - rewrite Hy. simpl. destruct (key x) eqn:E; [|done].
    rewrite IH. done.
Qed.

(** Sorting on a boolean key is the stable partition: the elements whose
    key is [False], in their original order, then those whose key is
    [True], in their original order. *)
Lemma sort_by_bool l :
  PySort.sort_by PySort.bool_ltb key l =
    filter (λ x, key x = false) l ++ filter (λ x, key x = true) l.
Proof.
  induction l as [|x l IH]; [done|].
  change (PySort.sort_by PySort.bool_ltb key (x :: l))
    with (PySort.insert_by PySort.bool_ltb key x
            (PySort.sort_by PySort.bool_ltb key l)).
  rewrite IH, insert_by_bool.
  - rewrite !filter_cons. destruct (key x) eqn:E.
    + rewrite decide_False, decide_True by done. done.
    + rewrite decide_True, decide_False by done. done.
  - apply Forall_forall. by intros y [? _]%list_elem_of_filter.
  - apply Forall_forall. by intros y [? _]%list_elem_of_filter.
Qed.
End BoolKey.

(** ** Python's [<] on [str] *)

Lemma string_ltb_leb (a b : string) : String.ltb a b = negb (String.leb b a).
Proof.
  unfold String.ltb, String.leb. rewrite (String.compare_antisym a b).
  by destruct (String.compare b a).
Qed.

Lemma string_ltb_asym (a b : string) :
  String.ltb a b = true → String.ltb b a = false.
Proof.
  rewrite !string_ltb_leb. intros Hab.
  destruct (String.leb_total a b) as [H|H]; rewrite H in *; done.
Qed.

Lemma string_ltb_negtrans (a b c : string) :
  String.ltb b a = false → String.ltb c b = false → String.ltb c a = false.
Proof.
  rewrite !string_ltb_leb, !negb_false_iff. intros Hab Hbc.
  apply Is_true_true. apply Is_true_true in Hab, Hbc.
  exact (@transitivity _ String.le _ a b c Hab Hbc).
Qed.

Lemma string_ltb_antisym (a b : string) :
  String.ltb a b = false → String.ltb b a = false → a = b.
Proof.
  rewrite !string_ltb_leb, !negb_false_iff. intros Hba Hab.
  by apply String.leb_antisym.
Qed.

Lemma nat_ltb_asym (a b : nat) : (a <? b) = true → (b <? a) = false.
Proof. rewrite Nat.ltb_lt, Nat.ltb_ge. lia. Qed.

Lemma nat_ltb_negtrans (a b c : nat) :
  (b <? a) = false → (c <? b) = false → (c <? a) = false.
Proof. rewrite !Nat.ltb_ge. lia. Qed.

(** ** Strings *)

Lemma string_app_nil_r (s : string) : s +:+ "" = s.
Proof.
  induction s as [|a s IH]; [done|].
  change (String a s +:+ "") with (String a (s +:+ "")). by rewrite IH.
Qed.

Lemma string_app_assoc (s1 s2 s3 : string) :
  (s1 +:+ s2) +:+ s3 = s1 +:+ (s2 +:+ s3).
Proof.
  induction s1 as [|a s1 IH]; [done|].
  change (String a ((s1 +:+ s2) +:+ s3) = String a (s1 +:+ (s2 +:+ s3))).
  by rewrite IH.
Qed.

Lemma occurs_in_refl (x : string) : occurs_in x x.
Proof. exists "", "". by rewrite string_app_nil_r. Qed.

Lemma occurs_in_app_l (x s t : string) : occurs_in x s → occurs_in x (s +:+ t).
Proof.
  intros (pre & post & ->). exists pre, (post +:+ t).
  by rewrite !string_app_assoc.
Qed.

Lemma occurs_in_app_r (x s t : string) : occurs_in x t → occurs_in x (s +:+ t).
Proof.
  intros (pre & post & ->). exists (s +:+ pre), post.
  by rewrite !string_app_assoc.
Qed.

Lemma concat_cons_cons (sep x y : string) (l : list string) :
  String.concat sep (x :: y :: l) = x +:+ sep +:+ String.concat sep (y :: l).
Proof. done. Qed.

(** Every piece of a joined list is found verbatim in the result. *)
Lemma occurs_in_concat (sep x : string) (l : list string) :
  x ∈ l → occurs_in x (String.concat sep l).
Proof.
  induction l as [|y [|z l] IH]; intros Hin.
  - by apply elem_of_nil in Hin.
  - apply list_elem_of_singleton in Hin as ->. apply occurs_in_refl.
  - rewrite concat_cons_cons.
    apply elem_of_cons in Hin as [->|Hin].
    + apply occurs_in_app_l, occurs_in_refl.
    + by apply occurs_in_app_r, occurs_in_app_r, IH.
Qed.

(** ** Export of objects *)

Section ObjectExport.
Context (registry : list BFNamelist).

Lemma Object_to_fds_without_children fuel objs self :
  Object_to_fds registry fuel objs self false =
    Some (String.concat "" (Object_myself_to_fds registry self)).
Proof. done. Qed.

Lemma children_obs_perm objs self :
  children_obs objs self ≡ₚ children_of objs self.
Proof. unfold children_obs. by rewrite !sort_by_perm. Qed.

Lemma children_obs_elem_of ob objs self :
  ob ∈ children_obs objs self ↔ ob ∈ objs ∧ ob_parent ob = self.
Proof.
  rewrite children_obs_perm. unfold children_of.
  rewrite list_elem_of_filter. tauto.
Qed.

Lemma Object_children_to_fds_S fuel objs self :
  Object_children_to_fds registry (S fuel) objs self =
    (bodies ← mapM
       (λ ob, Object_to_fds_with registry
                (Object_children_to_fds registry fuel objs) ob true)
       (children_obs objs self);
     Some (close_bodies (filter (λ body, body ≠ "") bodies))).
Proof. done. Qed.

Lemma rank_le_max rank (objs : list Object) ob :
  ob ∈ objs → rank (ob_id ob) ≤ max_list ((rank ∘ ob_id) <$> objs).
Proof.
  intros Hin. apply max_list_elem_of_le.
  by apply (list_elem_of_fmap_2 (rank ∘ ob_id)).
Qed.

(** With an acyclic hierarchy the recursion ends: fuel above the depth of
    the calls gives a result. *)
Lemma Object_children_to_fds_total rank objs :
  hierarchy_ranked rank objs →
  ∀ fuel self, call_depth rank objs self < fuel →
  is_Some (Object_children_to_fds registry fuel objs self).
Proof.
  intros Hrk fuel. induction fuel as [|fuel IH]; intros self Hd; [lia|].
  rewrite Object_children_to_fds_S.
  assert (is_Some (mapM
    (λ ob, Object_to_fds_with registry
             (Object_children_to_fds registry fuel objs) ob true)
    (children_obs objs self))) as [bodies Hb].
  { apply mapM_is_Some, Forall_forall. intros ob Hob. simpl.
    apply children_obs_elem_of in Hob as [Hin Hpar].
    unfold Object_to_fds_with.
    destruct (IH (Some (ob_id ob))) as [cs ->]; [|done].
    simpl. destruct self as [p|]; simpl in Hd.
    - pose proof (Hrk ob p Hin Hpar). lia.
    - pose proof (rank_le_max rank objs ob Hin). lia. }
  rewrite Hb. done.
Qed.

Lemma Object_to_fds_total rank objs :
  hierarchy_ranked rank objs →
  ∀ fuel self with_children, rank (ob_id self) < fuel →
  is_Some (Object_to_fds registry fuel objs self with_children).
Proof.
  intros Hrk fuel self [] Hd; [|done].
  unfold Object_to_fds, Object_to_fds_with.
  destruct (Object_children_to_fds_total rank objs Hrk fuel
              (Some (ob_id self))) as [cs ->]; done.
Qed.

(** More fuel does not change a result. *)
Lemma Object_children_to_fds_fuel_mono objs fuel :
  ∀ fuel' self bodies, fuel ≤ fuel' →
  Object_children_to_fds registry fuel objs self = Some bodies →
  Object_children_to_fds registry fuel' objs self = Some bodies.
Proof.
  induction fuel as [|fuel IH]; intros fuel' self bodies Hle; [done|].
  destruct fuel' as [|fuel']; [lia|]. rewrite !Object_children_to_fds_S.
  destruct (mapM _ (children_obs objs self)) as [bs|] eqn:Hbs; [|done].
  intros Heq.
  assert (mapM
    (λ ob, Object_to_fds_with registry
             (Object_children_to_fds registry fuel' objs) ob true)
    (children_obs objs self) = Some bs) as ->; [|done].
  apply mapM_Some. apply mapM_Some in Hbs.
  eapply Forall2_impl; [exact Hbs|]. intros ob b. simpl.
  unfold Object_to_fds_with.
  destruct (Object_children_to_fds registry fuel objs _) as [cs|] eqn:Hcs;
    [|done].
  by rewrite (IH fuel' _ cs) by (lia || done).
Qed.

(** The export of the children does not depend on the order in which the
    scene lists its objects, as long as their names are distinct. *)
Lemma Object_children_to_fds_perm objs objs' :
  NoDup (ob_name <$> objs) → objs ≡ₚ objs' →
  ∀ fuel self,
    Object_children_to_fds registry fuel objs' self =
    Object_children_to_fds registry fuel objs self.
Proof.
  intros Hnd Hp fuel. induction fuel as [|fuel IH]; intros self; [done|].
  rewrite !Object_children_to_fds_S.
  assert (children_obs objs' self = children_obs objs self) as ->.
  { unfold children_obs. f_equal. symmetry.
    apply sort_by_perm_invariant.
    - apply string_ltb_asym.
    - apply string_ltb_negtrans.
    - apply string_ltb_antisym.
    - eapply sublist_NoDup; [exact Hnd|].
      apply fmap_sublist. unfold children_of. apply sublist_filter.
    - unfold children_of. by rewrite Hp. }
  f_equal. apply mapM_ext. intros ob.
  unfold Object_to_fds_with. by rewrite IH.
Qed.

(** C7: a mesh object that is temporary, or whose [bf_namelist_cls] names no
    class of the registry, has no namelist ([bf_namelist] is [None]), its
    own export is the empty list, and [to_fds] returns the empty string
    for it: nothing is raised and the object is left out. *)
Theorem C7_object_without_namelist_is_omitted (self : Object) :
  ob_type self = "MESH" →
  ob_bf_is_tmp self = true ∨
    registry_get registry (ob_bf_namelist_cls self) = None →
  Object_bf_namelist registry self = None
  ∧ Object_myself_to_fds registry self = []
  ∧ ∀ fuel objs, Object_to_fds registry fuel objs self false = Some "".
Proof.
  intros Hty Hno.
  assert (Object_bf_namelist registry self = None) as Hnl.
  { unfold Object_bf_namelist. rewrite Hty.
    destruct Hno as [-> | ->]; simpl; [done|].
    by destruct (ob_bf_is_tmp self). }
  assert (Object_myself_to_fds registry self = []) as Hme.
  { unfold Object_myself_to_fds. rewrite Hnl, Hty.
    by destruct (ob_bf_export self). }
  split; [done|]. split; [done|].
  intros fuel objs. by rewrite Object_to_fds_without_children, Hme.
Qed.

Lemma mapM_elem_of {A B} (f : A → option B) (l : list A) (k : list B)
    (x : A) (y : B) :
  mapM f l = Some k → x ∈ l → f x = Some y → y ∈ k.
Proof.
  intros Hk Hx Hy. apply mapM_Some in Hk.
  apply list_elem_of_lookup in Hx as [i Hi].
  destruct (Forall2_lookup_l _ _ _ _ _ Hk Hi) as (y' & Hy' & Hf).
  assert (y' = y) as -> by congruence.
  apply list_elem_of_lookup. eauto.
Qed.

Lemma close_bodies_elem_of (body : string) (bodies : list string) :
  body ∈ bodies → body ∈ close_bodies bodies.
Proof.
  destruct bodies as [|b bodies]; [done|]. intros Hin.
  unfold close_bodies. apply elem_of_app. by left.
Qed.

(** C4: an object whose [bf_export] is false adds nothing of its own (its
    own export is the empty list, [to_fds] without children is the empty
    string), and [to_fds] with children on it returns exactly the export of
    its children: the flag of the parent does not gate them, and the
    non-empty export of each child is found verbatim in the result. *)
Theorem C4_disabled_object_exports_only_children
    (rank : nat → nat) (fuel : nat) (objs : list Object) (self : Object) :
  ob_bf_export self = false →
  hierarchy_ranked rank objs →
  rank (ob_id self) < S fuel →
  Object_myself_to_fds registry self = []
  ∧ Object_to_fds registry (S fuel) objs self false = Some ""
  ∧ ∃ bodies,
      Object_children_to_fds registry (S fuel) objs (Some (ob_id self))
        = Some bodies
      ∧ Object_to_fds registry (S fuel) objs self true
          = Some (String.concat "" bodies)
      ∧ ∀ child body,
          child ∈ objs → ob_parent child = Some (ob_id self) →
          Object_to_fds registry fuel objs child true = Some body →
          body ≠ "" →
          body ∈ bodies ∧ occurs_in body (String.concat "" bodies).
Proof.
  intros Hex Hrk Hd.
  assert (Object_myself_to_fds registry self = []) as Hme.
  { unfold Object_myself_to_fds. by rewrite Hex. }
  split; [done|]. split.
  { by rewrite Object_to_fds_without_children, Hme. }
  destruct (Object_children_to_fds_total rank objs Hrk (S fuel)
              (Some (ob_id self)) Hd) as [bodies Hb].
  exists bodies. split; [done|]. split.
  { unfold Object_to_fds, Object_to_fds_with. by rewrite Hme, Hb. }
  intros child body Hin Hpar Hbody Hne.
  assert (body ∈ bodies) as Hmem.
  { rewrite Object_children_to_fds_S in Hb.
    destruct (mapM _ (children_obs objs (Some (ob_id self))))
      as [bs|] eqn:Hbs; [|done].
    injection Hb as <-. apply close_bodies_elem_of.
    apply list_elem_of_filter. split; [done|].
    eapply mapM_elem_of; [exact Hbs| |exact Hbody].
    by apply children_obs_elem_of. }
  split; [done|]. by apply occurs_in_concat.
Qed.

Lemma children_by_name_sorted objs self :
  StronglySorted (λ a b, (ob_name a ≤ ob_name b)%string)
    (PySort.sort_by String.ltb ob_name (children_of objs self)).
Proof.
  pose proof (sort_by_sorted String.ltb ob_name
                string_ltb_asym string_ltb_negtrans
                (children_of objs self)) as Hs.
  induction Hs as [|a l _ IH Ha]; constructor; [done|].
  eapply Forall_impl; [exact Ha|]. intros b Hb.
  unfold PySort.key_le in Hb. rewrite string_ltb_leb in Hb.
  apply negb_false_iff in Hb. by apply Is_true_true.
Qed.

Lemma StronglySorted_filter {A} (R : relation A) (P : A → Prop)
    `{∀ x, Decision (P x)} (l : list A) :
  StronglySorted R l → StronglySorted R (filter P l).
Proof.
  induction 1 as [|x l _ IH Hx]; [constructor|].
  rewrite filter_cons. destruct (decide (P x)); [|done].
  constructor; [done|].
  apply Forall_forall. intros y [_ Hy]%list_elem_of_filter.
  by eapply Forall_forall in Hx.
Qed.

Lemma children_obs_partition objs self :
  children_obs objs self =
    filter (λ ob, ob_bf_namelist_cls ob = "ON_MESH")
      (PySort.sort_by String.ltb ob_name (children_of objs self))
    ++ filter (λ ob, ob_bf_namelist_cls ob ≠ "ON_MESH")
      (PySort.sort_by String.ltb ob_name (children_of objs self)).
Proof.
  unfold children_obs. rewrite sort_by_bool. f_equal.
  - apply list_filter_iff. intros ob. unfold not_ON_MESH.
    rewrite bool_decide_eq_false. split; [apply dec_stable|tauto].
  - apply list_filter_iff. intros ob. unfold not_ON_MESH.
    by rewrite bool_decide_eq_true.
Qed.

(** C3: [_children_to_fds] takes the children of [self] with those of class
    ["ON_MESH"] first and, inside each of the two groups, by name; it
    returns the non-empty exports of the children in that order, followed
    by one ["\n"] when there is any; and, the names of the objects being
    distinct, the result is the same for every order in which the scene
    lists its objects. *)
Theorem C3_children_export_order
    (rank : nat → nat) (fuel : nat) (objs objs' : list Object)
    (self : option nat) :
  hierarchy_ranked rank objs →
  call_depth rank objs self < S fuel →
  NoDup (ob_name <$> objs) →
  objs ≡ₚ objs' →
  let by_name := PySort.sort_by String.ltb ob_name (children_of objs self) in
  children_obs objs self =
    filter (λ ob, ob_bf_namelist_cls ob = "ON_MESH") by_name
    ++ filter (λ ob, ob_bf_namelist_cls ob ≠ "ON_MESH") by_name
  ∧ by_name ≡ₚ children_of objs self
  ∧ StronglySorted (λ a b, (ob_name a ≤ ob_name b)%string)
      (filter (λ ob, ob_bf_namelist_cls ob = "ON_MESH") by_name)
  ∧ StronglySorted (λ a b, (ob_name a ≤ ob_name b)%string)
      (filter (λ ob, ob_bf_namelist_cls ob ≠ "ON_MESH") by_name)
  ∧ (∃ bodies,
       mapM (λ ob, Object_to_fds registry fuel objs ob true)
         (children_obs objs self) = Some bodies
       ∧ Object_children_to_fds registry (S fuel) objs self =
           Some (match filter (λ body, body ≠ "") bodies with
                 | [] => []
                 | emitted => emitted ++ [NL]
                 end))
  ∧ Object_children_to_fds registry (S fuel) objs' self =
      Object_children_to_fds registry (S fuel) objs self.
Proof.
  intros Hrk Hd Hnd Hp by_name.
  split; [apply children_obs_partition|].
  split; [apply sort_by_perm|].
  split; [apply StronglySorted_filter, children_by_name_sorted|].
  split; [apply StronglySorted_filter, children_by_name_sorted|].
  split; [|by apply Object_children_to_fds_perm].
  destruct (Object_children_to_fds_total rank objs Hrk (S fuel) self Hd)
    as [out Hout].
  rewrite Object_children_to_fds_S in Hout.
  destruct (mapM _ (children_obs objs self)) as [bodies|] eqn:Hb; [|done].
  exists bodies. split; [done|].
  rewrite Object_children_to_fds_S, Hb. simpl. unfold close_bodies.
  by destruct (filter _ bodies).
Qed.
End ObjectExport.

(** ** Import: resolving the namelist class of a token *)

Tactic Notation "unfold_M" :=
  unfold mbind, M_bind, bind, mret, M_ret, ret, modify, get_world, raise.
Tactic Notation "unfold_M" "in" hyp(H) :=
  unfold mbind, M_bind, bind, mret, M_ret, ret, modify, get_world, raise in H.

Section ImportLoop.
Context (host : Host) (registry : list BFNamelist).

Lemma has_geometry_spec (fds_params : gmap string string) :
  has_geometry fds_params = true ↔
  ∃ label, label ∈ ["XB"; "XYZ"; "PBX"; "PBY"; "PBZ"]
           ∧ is_Some (fds_params !! label).
Proof.
  unfold has_geometry, geometry_labels. rewrite existsb_exists. split.
  - intros (label & Hin & Hl). exists label.
    split; [by apply list_elem_of_In|]. by apply bool_decide_eq_true in Hl.
  - intros (label & Hin & Hl). exists label.
    split; [by apply list_elem_of_In|]. by apply bool_decide_eq_true.
Qed.

Lemma registry_get_name name c :
  registry_get registry name = Some c → c ∈ registry ∧ cls_name c = name.
Proof.
  unfold registry_get. intros [Hin Hc]%find_some.
  split; [by apply list_elem_of_In|]. by apply bool_decide_eq_true in Hc.
Qed.

Lemma registry_get_by_fds_label_elem label c :
  registry_get_by_fds_label registry label = Some c →
  c ∈ registry ∧ cls_fds_label c = Some label.
Proof.
  unfold registry_get_by_fds_label. intros [Hin Hc]%find_some.
  split; [by apply list_elem_of_In|]. by apply bool_decide_eq_true in Hc.
Qed.

Lemma managed_by_elem token c :
  managed_by registry token c → c ∈ registry.
Proof.
  intros [H|(_ & _ & H)].
  - by apply registry_get_by_fds_label_elem in H as [? _].
  - by apply registry_get_name in H as [? _].
Qed.

Lemma get_cls_managed token c w :
  managed_by registry token c →
  Scene_get_imported_bf_namelist_cls registry
    (fds_label token) (fds_params token) w = Returned (Some c) w.
Proof.
  unfold Scene_get_imported_bf_namelist_cls, registry_getitem.
  intros [-> | (-> & -> & Hfree)]; [done|].
  unfold_M. by rewrite Hfree.
Qed.

Lemma get_cls_unmanaged token w :
  unmanaged registry token →
  Scene_get_imported_bf_namelist_cls registry
    (fds_label token) (fds_params token) w = Returned None w.
Proof.
  unfold Scene_get_imported_bf_namelist_cls. by intros [-> ->].
Qed.

(** The body of the loop on a token that is not managed: its original text
    joins the fallback list; the flag and the world are as they were. *)
Lemma import_token_unmanaged st token w :
  unmanaged registry token →
  import_token host registry st token w =
    Returned {| errors := errors st;
                free_texts := free_texts st ++ [fds_original token] |} w.
Proof.
  intros Hun. unfold import_token. unfold_M.
  by rewrite (get_cls_unmanaged _ _ Hun).
Qed.

(** The body of the loop on a managed token whose element is resolved: the
    codec runs on the world that [_get_imported_element] leaves; when it
    raises, the flag is set and its fragments join the fallback list, and
    the body returns all the same. *)
Lemma import_token_managed st token w c element w2 w3 err :
  managed_by registry token c →
  Scene_get_imported_element host registry c (fds_label token) w
    = Returned element w2 →
  nl_from_fds c element (fds_params token) w2 = (w3, err) →
  import_token host registry st token w =
    Returned (match err with
              | Some fragments =>
                  {| errors := true;
                     free_texts := free_texts st ++ fragments |}
              | None => st
              end) w3.
Proof.
  intros Hm Hel Hnl. unfold import_token. unfold_M.
  rewrite (get_cls_managed _ _ _ Hm), Hel.
  unfold namelist_from_fds. rewrite Hnl. by destruct err.
Qed.

Lemma import_token_fatal st token w c e w2 :
  managed_by registry token c →
  Scene_get_imported_element host registry c (fds_label token) w
    = Raised e w2 →
  import_token host registry st token w = Raised e w2.
Proof.
  intros Hm Hel. unfold import_token. unfold_M.
  by rewrite (get_cls_managed _ _ _ Hm), Hel.
Qed.

(** A token is managed by a class, or not managed, or asks for the class
    ["ON_free"] that the registry lacks. *)
Lemma token_cases token :
  (∃ c, managed_by registry token c)
  ∨ unmanaged registry token
  ∨ (registry_get_by_fds_label registry (fds_label token) = None
     ∧ has_geometry (fds_params token) = true
     ∧ registry_get registry "ON_free" = None).
Proof.
  unfold managed_by, unmanaged.
  destruct (registry_get_by_fds_label registry (fds_label token)) as [c|];
    [left; eauto|].
  destruct (has_geometry (fds_params token)); [|right; left; done].
  destruct (registry_get registry "ON_free") as [c|].
  - left. exists c. right. done.
  - right. right. done.
Qed.

Lemma import_tokens_app st pre post w :
  import_tokens host registry st (pre ++ post) w =
    match import_tokens host registry st pre w with
    | Returned st' w' => import_tokens host registry st' post w'
    | Raised e w' => Raised e w'
    end.
Proof.
  revert st w. induction pre as [|token pre IH]; intros st w; [done|].
  simpl. unfold_M.
  destruct (import_token host registry st token w) as [st1 w1|e w1]; [|done].
  apply IH.
Qed.

Lemma import_loop_tokens value w :
  import_loop host registry value w =
    import_tokens host registry (initial_locals host value)
      (tokens_in_order host value) w.
Proof.
  unfold import_loop, initial_locals, tokens_in_order.
  destruct (tokenize host value) as [[|token tokens]|fragments]; done.
Qed.
(** *** With a well-formed registry the loop meets no fatal error *)

Lemma get_imported_element_returns c fds_label w :
  cls_bpy_type c ≠ TOther →
  ∃ element w2,
    Scene_get_imported_element host registry c fds_label w
      = Returned element w2.
Proof.
  intros Hty. unfold Scene_get_imported_element.
  destruct (cls_bpy_type c); [..|done]; unfold_M; simpl; eauto.
Qed.

Lemma import_token_returns st token w :
  registry_well_formed registry →
  ∃ st' w', import_token host registry st token w = Returned st' w'.
Proof.
  intros [Hty [free Hfree]].
  destruct (token_cases token) as [[c Hm]|[Hun|(_ & _ & Hno)]].
  - assert (cls_bpy_type c ≠ TOther) as Hc.
    { eapply Forall_forall in Hty; [exact Hty|]. by eapply managed_by_elem. }
    destruct (get_imported_element_returns c (fds_label token) w Hc)
      as (element & w2 & Hel).
    destruct (nl_from_fds c element (fds_params token) w2) as [w3 err] eqn:Hnl.
    rewrite (import_token_managed st token w c element w2 w3 err); eauto.
  - rewrite import_token_unmanaged by done. eauto.
  - congruence.
Qed.

Lemma import_tokens_returns tokens st w :
  registry_well_formed registry →
  ∃ st' w', import_tokens host registry st tokens w = Returned st' w'.
Proof.
  intros Hwf. revert st w.
  induction tokens as [|token tokens IH]; intros st w; simpl.
  - unfold_M. eauto.
  - unfold_M.
    destruct (import_token_returns st token w Hwf) as (st1 & w1 & ->).
    apply IH.
Qed.

Lemma import_loop_returns value w :
  registry_well_formed registry →
  ∃ st w1, import_loop host registry value w = Returned st w1.
Proof.
  intros Hwf. rewrite import_loop_tokens. by apply import_tokens_returns.
Qed.

(** *** What the loop leaves in its locals *)

(** One turn of the loop only adds to the fallback list and only sets the
    flag. *)
Lemma import_token_grows st token w st' w' :
  import_token host registry st token w = Returned st' w' →
  (∃ more, free_texts st' = free_texts st ++ more)
  ∧ (errors st = true → errors st' = true).
Proof.
  destruct (token_cases token) as [[c Hm]|[Hun|(Hl & Hg & Hno)]].
  - destruct (Scene_get_imported_element host registry c (fds_label token) w)
      as [element w2|e w2] eqn:Hel.
    + destruct (nl_from_fds c element (fds_params token) w2)
        as [w3 err] eqn:Hnl.
      rewrite (import_token_managed st token w c element w2 w3 err) by done.
      intros [= <- <-]. destruct err as [fragments|]; simpl.
      * split; [by exists fragments|done].
      * split; [|done]. exists []. by rewrite app_nil_r.
    + by rewrite (import_token_fatal st token w c e w2).
  - rewrite import_token_unmanaged by done. intros [= <- <-]. simpl.
    split; [by eexists|done].
  - unfold import_token, Scene_get_imported_bf_namelist_cls, registry_getitem.
    unfold_M. by rewrite Hl, Hg, Hno.
Qed.

Lemma import_tokens_grows tokens st w st' w' :
  import_tokens host registry st tokens w = Returned st' w' →
  (∃ more, free_texts st' = free_texts st ++ more)
  ∧ (errors st = true → errors st' = true).
Proof.
  revert st w. induction tokens as [|token tokens IH]; intros st w; simpl.
  - unfold_M. intros [= <- <-]. split; [|done].
    exists []. by rewrite app_nil_r.
  - unfold_M.
    destruct (import_token host registry st token w) as [st1 w1|e w1] eqn:H1;
      [|done].
    intros H2. apply import_token_grows in H1 as [[m1 Hm1] He1].
    apply IH in H2 as [[m2 Hm2] He2]. split; [|auto].
    exists (m1 ++ m2). by rewrite Hm2, Hm1, (assoc_L (++)).
Qed.

(** The original text of every token of the loop that is not managed is in
    the fallback list when the loop ends. *)
Lemma import_tokens_keeps_unmanaged tokens st w st' w' token :
  import_tokens host registry st tokens w = Returned st' w' →
  token ∈ tokens → unmanaged registry token →
  fds_original token ∈ free_texts st'.
Proof.
  intros Hrun Hin Hun.
  apply list_elem_of_split in Hin as (pre & post & ->).
  rewrite import_tokens_app in Hrun.
  destruct (import_tokens host registry st pre w) as [st1 w1|e w1]; [|done].
  simpl in Hrun. unfold_M in Hrun.
  rewrite import_token_unmanaged in Hrun by done.
  apply import_tokens_grows in Hrun as [[more ->] _]. simpl.
  rewrite !elem_of_app, list_elem_of_singleton. auto.
Qed.

(** When the codec of a token raises, the flag is set and the fragments of
    the error are in the fallback list when the loop ends. *)
Lemma import_tokens_keeps_error pre token post st w st1 w1 c element w2 w3
    fragments st' w' :
  import_tokens host registry st (pre ++ token :: post) w = Returned st' w' →
  import_tokens host registry st pre w = Returned st1 w1 →
  managed_by registry token c →
  Scene_get_imported_element host registry c (fds_label token) w1
    = Returned element w2 →
  nl_from_fds c element (fds_params token) w2 = (w3, Some fragments) →
  errors st' = true ∧ ∀ x, x ∈ fragments → x ∈ free_texts st'.
Proof.
  intros Hrun Hpre Hm Hel Hnl.
  rewrite import_tokens_app, Hpre in Hrun. simpl in Hrun. unfold_M in Hrun.
  rewrite (import_token_managed st1 token w1 c element w2 w3 _ Hm Hel Hnl)
    in Hrun.
  apply import_tokens_grows in Hrun as [[more Hmore] Herr]. simpl in *.
  split; [by apply Herr|].
  intros x Hx. rewrite Hmore, !elem_of_app. auto.
Qed.

End ImportLoop.

(** ** Import: saving the fallback list *)

Section Save.
Context (host : Host) (registry : list BFNamelist).

(** [set_free_text_file] returns the name of a text that is in the store,
    that the scene names, and whose content is the free text the scene
    held. *)
Lemma set_free_text_file_spec w :
  ∃ w1,
    set_free_text_file host w = Returned (sc_bf_head_free_text (scene w1)) w1
    ∧ free_text_resource w1 = Some (existing_free_text w)
    ∧ objects w1 = objects w ∧ materials w1 = materials w.
Proof.
  unfold set_free_text_file, free_text_resource, existing_free_text. unfold_M.
  destruct (bool_decide (sc_bf_head_free_text (scene w) ≠ "")) eqn:Hname;
    simpl.
  - destruct (texts w !! sc_bf_head_free_text (scene w)) as [old|] eqn:Hold;
      simpl.
    + exists w. by rewrite Hold.
    + exists (with_scene (sc_set_bf_head_free_text (new_text_name host (texts w)))
                (with_texts <[new_text_name host (texts w):=""]> w)).
      split; [done|]. simpl. by rewrite lookup_insert_eq.
  - exists (with_scene (sc_set_bf_head_free_text (new_text_name host (texts w)))
                (with_texts <[new_text_name host (texts w):=""]> w)).
    split; [done|]. simpl. by rewrite lookup_insert_eq.
Qed.

(** [_save_imported_unmanaged_tokens] returns, and leaves in the scene's
    free text the fallback list followed by the content the text had. *)
Lemma save_spec fallback w :
  ∃ w2,
    Scene_save_imported_unmanaged_tokens host fallback w = Returned tt w2
    ∧ free_text_resource w2
        = Some (merged_existing_last fallback (existing_free_text w))
    ∧ objects w2 = objects w ∧ materials w2 = materials w.
Proof.
  destruct (set_free_text_file_spec w) as (w1 & Hset & Hres & Hob & Hma).
  unfold Scene_save_imported_unmanaged_tokens, texts_as_string,
    texts_from_string. unfold_M.
  rewrite Hset. unfold free_text_resource in Hres. rewrite Hres.
  exists (with_texts
            <[sc_bf_head_free_text (scene w1) :=
                merged_existing_last fallback (existing_free_text w)]> w1).
  unfold free_text_resource, merged_existing_last. simpl.
  rewrite lookup_insert_eq. split; [|done].
  rewrite Hres.
  destruct (bool_decide (existing_free_text w ≠ "")); [done|].
  by rewrite app_nil_r.
Qed.

(** [from_fds] after its loop: the fallback list is saved, then the flag
    decides between the aggregate error and the return. *)
Lemma from_fds_after_loop value w st w1 :
  import_loop host registry value w = Returned st w1 →
  ∃ w2,
    Scene_from_fds host registry value w =
      (if errors st then Raised aggregate_error w2 else Returned tt w2)
    ∧ free_text_resource w2
        = Some (merged_existing_last (free_texts st) (existing_free_text w1))
    ∧ objects w2 = objects w1 ∧ materials w2 = materials w1.
Proof.
  intros Hloop.
  destruct (save_spec (free_texts st) w1) as (w2 & Hsave & Hres & Hrest).
  exists w2. split; [|done].
  unfold Scene_from_fds. unfold_M. rewrite Hloop, Hsave.
  by destruct (errors st).
Qed.

(** A fatal error of the loop leaves [from_fds] at once: nothing is
    saved. *)
Lemma from_fds_fatal value w e w1 :
  import_loop host registry value w = Raised e w1 →
  Scene_from_fds host registry value w = Raised e w1.
Proof. intros Hloop. unfold Scene_from_fds. unfold_M. by rewrite Hloop. Qed.
End Save.

(** ** Import: the order of the tokens and their classes *)

Section ImportTokens.
Context (host : Host) (registry : list BFNamelist).

Lemma import_order_partition (tokens : list Token) :
  import_order tokens =
    filter (λ k, fds_label k = "SURF_ID") tokens
    ++ filter (λ k, fds_label k ≠ "SURF_ID") tokens.
Proof.
  unfold import_order. rewrite sort_by_bool. f_equal.
  - apply list_filter_iff. intros k. unfold not_SURF_ID.
    rewrite bool_decide_eq_false. split; [apply dec_stable|tauto].
  - apply list_filter_iff. intros k. unfold not_SURF_ID.
    by rewrite bool_decide_eq_true.
Qed.

(** C2: [from_fds] runs its loop over the tokens of the tokenizer with
    those whose label is ["SURF_ID"] first, in the order they had, then
    the others, in the order they had. *)
Theorem C2_surf_id_tokens_first (value : string) (tokens : list Token)
    (w : World) :
  tokenize host value = inl tokens →
  import_order tokens =
    filter (λ k, fds_label k = "SURF_ID") tokens
    ++ filter (λ k, fds_label k ≠ "SURF_ID") tokens
  ∧ Scene_from_fds host registry value w =
      (st ← import_tokens host registry
              {| errors := false; free_texts := [] |}
              (filter (λ k, fds_label k = "SURF_ID") tokens
               ++ filter (λ k, fds_label k ≠ "SURF_ID") tokens);
       Scene_save_imported_unmanaged_tokens host (free_texts st);;
       if errors st then raise aggregate_error else ret tt) w.
Proof.
  intros Htok. split; [apply import_order_partition|].
  unfold Scene_from_fds. unfold_M.
  rewrite import_loop_tokens. unfold initial_locals, tokens_in_order.
  by rewrite Htok, import_order_partition.
Qed.

(** C8: a token whose label has no class in the registry gets the class
    ["ON_free"] exactly when its parameters have one of the keys [XB],
    [XYZ], [PBX], [PBY], [PBZ]; with none of them it gets no class, and the
    loop takes it as not managed: its original text joins the fallback
    list. *)
Theorem C8_geometry_keys_select_ON_free (token : Token) (free : BFNamelist)
    (w : World) :
  registry_get_by_fds_label registry (fds_label token) = None →
  registry_get registry "ON_free" = Some free →
  cls_name free = "ON_free"
  ∧ (Scene_get_imported_bf_namelist_cls registry
       (fds_label token) (fds_params token) w = Returned (Some free) w
     ↔ ∃ label, label ∈ ["XB"; "XYZ"; "PBX"; "PBY"; "PBZ"]
                ∧ is_Some (fds_params token !! label))
  ∧ ((¬ ∃ label, label ∈ ["XB"; "XYZ"; "PBX"; "PBY"; "PBZ"]
                 ∧ is_Some (fds_params token !! label)) →
     Scene_get_imported_bf_namelist_cls registry
       (fds_label token) (fds_params token) w = Returned None w
     ∧ ∀ st, import_token host registry st token w =
         Returned {| errors := errors st;
                     free_texts := free_texts st ++ [fds_original token] |}
                  w).
Proof.
  intros Hlabel Hfree.
  split; [by apply registry_get_name in Hfree as [_ ?]|].
  rewrite <-has_geometry_spec.
  unfold Scene_get_imported_bf_namelist_cls, registry_getitem. unfold_M.
  rewrite Hlabel, Hfree.
  destruct (has_geometry (fds_params token)) eqn:Hgeo.
  - split; [done|]. by intros [].
  - split; [done|]. intros _. split; [done|].
    intros st. by apply import_token_unmanaged.
Qed.
End ImportTokens.

(** ** Import: the element of a managed token *)

Section ImportElement.
Context (host : Host) (registry : list BFNamelist).

Lemma fresh_id_not_elem_of (ids : list nat) : fresh_id ids ∉ ids.
Proof. apply max_list_not_elem_of_gt. unfold fresh_id. lia. Qed.

Lemma update_last_object (obs : list Object) (o : Object) (id : nat)
    (f : Object → Object) :
  ob_id o = id → id ∉ (ob_id <$> obs) →
  (λ x, if bool_decide (ob_id x = id) then f x else x) <$> (obs ++ [o])
    = obs ++ [f o].
Proof.
  intros Hid Hfresh. rewrite fmap_app. f_equal.
  - induction obs as [|x obs IH]; [done|].
    rewrite fmap_cons in Hfresh. rewrite fmap_cons.
    apply not_elem_of_cons in Hfresh as [Hx Hobs].
    rewrite bool_decide_eq_false_2 by done. by rewrite IH.
  - simpl. by rewrite bool_decide_eq_true_2.
Qed.

Lemma update_last_material (mas : list Material) (m : Material) (id : nat)
    (f : Material → Material) :
  ma_id m = id → id ∉ (ma_id <$> mas) →
  (λ x, if bool_decide (ma_id x = id) then f x else x) <$> (mas ++ [m])
    = mas ++ [f m].
Proof.
  intros Hid Hfresh. rewrite fmap_app. f_equal.
  - induction mas as [|x mas IH]; [done|].
    rewrite fmap_cons in Hfresh. rewrite fmap_cons.
    apply not_elem_of_cons in Hfresh as [Hx Hmas].
    rewrite bool_decide_eq_false_2 by done. by rewrite IH.
  - simpl. by rewrite bool_decide_eq_true_2.
Qed.

Lemma ob_id_set_default_appearance (o : Object) :
  ob_id (Object_set_default_appearance registry o) = ob_id o.
Proof.
  unfold Object_set_default_appearance.
  destruct (Object_bf_namelist registry o) as [c|]; [|done].
  by destruct (truthy (cls_draw_type c)).
Qed.

Lemma get_imported_element_object c fds_label w :
  cls_bpy_type c = TObject →
  Scene_get_imported_element host registry c fds_label w =
    Returned (RefObject (fresh_id (ob_id <$> objects w)))
      (with_objects
         (λ obs, obs ++ [imported_object host registry c fds_label
                           (fresh_id (ob_id <$> objects w))]) w).
Proof.
  intros Hty. unfold Scene_get_imported_element, get_new_object.
  rewrite Hty. unfold_M. unfold update_object, with_objects. simpl.
  f_equal. f_equal.
  set (id := fresh_id (ob_id <$> objects w)).
  set (o := ob_set_identity id ("New " +:+ fds_label) (blank_object host)).
  rewrite (update_last_object (objects w) o id)
    by (done || apply fresh_id_not_elem_of).
  by rewrite (update_last_object (objects w) _ id)
    by (done || apply fresh_id_not_elem_of).
Qed.

Lemma get_imported_element_material c fds_label w :
  cls_bpy_type c = TMaterial →
  Scene_get_imported_element host registry c fds_label w =
    Returned (RefMaterial (fresh_id (ma_id <$> materials w)))
      (with_materials
         (λ mas, mas ++ [imported_material host fds_label
                           (fresh_id (ma_id <$> materials w))]) w).
Proof.
  intros Hty. unfold Scene_get_imported_element, get_new_material.
  rewrite Hty. unfold_M. unfold update_material, with_materials. simpl.
  f_equal. f_equal.
  set (id := fresh_id (ma_id <$> materials w)).
  set (m := ma_set_identity id ("New " +:+ fds_label) (blank_material host)).
  rewrite (update_last_material (materials w) m id)
    by (done || apply fresh_id_not_elem_of).
  by rewrite (update_last_material (materials w) _ id)
    by (done || apply fresh_id_not_elem_of).
Qed.
(** C9: the element of a token managed by the class [c] follows the
    Blender type of [c]: the importing scene itself for a scene class; a
    new object named ["New <label>"] whose [bf_namelist_cls] is the name of
    [c] for an object class; a new material named ["New <label>"] whose
    [bf_namelist_cls] is ["MN_SURF"] for a material class; a [ValueError]
    for any other type.  The element has its default appearance when
    [_get_imported_element] returns, and the [from_fds] of the namelist
    runs on the world so left. *)
Theorem C9_element_of_managed_token (token : Token) (c : BFNamelist)
    (st : Locals) (w : World) :
  managed_by registry token c →
  match cls_bpy_type c with
  | TScene =>
      Scene_get_imported_element host registry c (fds_label token) w =
        Returned RefScene (with_scene Scene_set_default_appearance w)
  | TObject =>
      let id := fresh_id (ob_id <$> objects w) in
      let ob := imported_object host registry c (fds_label token) id in
      (id ∉ (ob_id <$> objects w))
      ∧ ob_id ob = id
      ∧ ob_name ob = "New " +:+ fds_label token
      ∧ ob_bf_namelist_cls ob = cls_name c
      ∧ ob = Object_set_default_appearance registry
               (ob_set_bf_namelist_cls (cls_name c)
                  (ob_set_identity id ("New " +:+ fds_label token)
                     (blank_object host)))
      ∧ Scene_get_imported_element host registry c (fds_label token) w =
          Returned (RefObject id) (with_objects (λ obs, obs ++ [ob]) w)
  | TMaterial =>
      let id := fresh_id (ma_id <$> materials w) in
      let ma := imported_material host (fds_label token) id in
      (id ∉ (ma_id <$> materials w))
      ∧ ma_id ma = id
      ∧ ma_name ma = "New " +:+ fds_label token
      ∧ ma_bf_namelist_cls ma = "MN_SURF"
      ∧ ma_use_fake_user ma = true
      ∧ Scene_get_imported_element host registry c (fds_label token) w =
          Returned (RefMaterial id) (with_materials (λ mas, mas ++ [ma]) w)
  | TOther =>
      Scene_get_imported_element host registry c (fds_label token) w =
        Raised
          (ValueError "BFDS: BFScene.from_fds: Unrecognized namelist type!") w
  end
  ∧ import_token host registry st token w =
      match Scene_get_imported_element host registry c (fds_label token) w with
      | Returned element w2 =>
          let '(w3, err) := nl_from_fds c element (fds_params token) w2 in
          Returned (match err with
                    | Some fragments =>
                        {| errors := true;
                           free_texts := free_texts st ++ fragments |}
                    | None => st
                    end) w3
      | Raised e w2 => Raised e w2
      end.
Proof.
  intros Hm. split.
  - destruct (cls_bpy_type c) eqn:Hty.
    + unfold Scene_get_imported_element. by rewrite Hty.
    + cbv zeta. split; [apply fresh_id_not_elem_of|].
      split; [apply ob_id_set_default_appearance|].
      split.
      { unfold imported_object, Object_set_default_appearance.
        destruct (Object_bf_namelist registry _) as [nl|]; [|done].
        by destruct (truthy (cls_draw_type nl)). }
      split.
      { unfold imported_object, Object_set_default_appearance.
        destruct (Object_bf_namelist registry _) as [nl|]; [|done].
        by destruct (truthy (cls_draw_type nl)). }
      split; [done|]. by apply get_imported_element_object.
    + cbv zeta. split; [apply fresh_id_not_elem_of|].
      do 4 (split; [done|]). by apply get_imported_element_material.
    + unfold Scene_get_imported_element. by rewrite Hty.
  - destruct (Scene_get_imported_element host registry c (fds_label token) w)
      as [element w2|e w2] eqn:Hel.
    + destruct (nl_from_fds c element (fds_params token) w2) as [w3 err] eqn:Hnl.
      by apply (import_token_managed host registry st token w c element w2).
    + by apply (import_token_fatal host registry st token w c).
Qed.
End ImportElement.

(** ** Import: the fallback text and the aggregate error *)

Section ImportOutcome.
Context (host : Host) (registry : list BFNamelist).

(** C1 (amended): after the loop over the tokens, the fallback list is
    merged with the content that the scene's free text has, the fallback
    list first and the existing content last, joined by line feeds, and the
    merge is written to the scene's free text, which is made when there is
    none; this is done for every fallback list, the empty one too, so the
    resource is there after every import. *)
Theorem C1_fallback_merged_existing_last (value : string) (w : World) :
  registry_well_formed registry →
  ∃ st w1 w2,
    import_loop host registry value w = Returned st w1
    ∧ Scene_from_fds host registry value w =
        (if errors st then Raised aggregate_error w2 else Returned tt w2)
    ∧ free_text_resource w2 =
        Some (String.concat NL
                (free_texts st ++
                 (if bool_decide (existing_free_text w1 ≠ "")
                  then [existing_free_text w1] else []))).
Proof.
  intros Hwf.
  destruct (import_loop_returns host registry value w Hwf) as (st & w1 & Hl).
  destruct (from_fds_after_loop host registry value w st w1 Hl)
    as (w2 & Hfrom & Hres & _).
  by exists st, w1, w2.
Qed.

Lemma initial_locals_parse_error value fragments :
  parse_error host value fragments →
  initial_locals host value = {| errors := true; free_texts := fragments |}.
Proof. unfold parse_error, initial_locals. by intros ->. Qed.



(** Everything that the import could not take is in the fallback list when
    the loop ends. *)
Lemma loop_keeps_fragments value w st w1 x :
  import_loop host registry value w = Returned st w1 →
  (∃ fragments, parse_error host value fragments ∧ x ∈ fragments)
  ∨ (∃ tokens token,
       tokenize host value = inl tokens ∧ token ∈ tokens
       ∧ unmanaged registry token ∧ x = fds_original token)
  ∨ (∃ fragments, namelist_error host registry value w fragments
                  ∧ x ∈ fragments) →
  x ∈ free_texts st.
Proof.
  rewrite import_loop_tokens. intros Hrun [Hparse|[Hun|Hnl]].
  - destruct Hparse as (fragments & Hparse & Hx).
    apply import_tokens_grows in Hrun as [[more ->] _].
    rewrite (initial_locals_parse_error _ _ Hparse). simpl.
    apply elem_of_app. auto.
  - destruct Hun as (tokens & token & Htok & Hin & Hun & ->).
    eapply import_tokens_keeps_unmanaged; [exact Hrun| |done].
    unfold tokens_in_order. rewrite Htok.
    unfold import_order. by apply sort_by_elem_of.
  - destruct Hnl as (fragments & Hnl & Hx).
    destruct Hnl as (pre & token & post & st1 & w1' & c & element & w2
                     & w3 & Heq & Hpre & Hm & Hel & Hnl).
    rewrite Heq in Hrun.
    destruct (import_tokens_keeps_error host registry _ _ _ _ _ _ _ _
                _ _ _ _ _ _ Hrun Hpre Hm Hel Hnl) as [_ Hall].
    by apply Hall.
Qed.


(** C6: the original text of every token that is not managed, and every
    fragment carried by the error of the tokenizer or of the namelist of a
    managed token, is found verbatim in the scene's free text when the
    import is over. *)
Theorem C6_no_fragment_is_lost (value : string) (w : World) (x : string) :
  registry_well_formed registry →
  (∃ fragments, parse_error host value fragments ∧ x ∈ fragments)
  ∨ (∃ tokens token,
       tokenize host value = inl tokens ∧ token ∈ tokens
       ∧ unmanaged registry token ∧ x = fds_original token)
  ∨ (∃ fragments, namelist_error host registry value w fragments
                  ∧ x ∈ fragments) →
  ∃ content,
    free_text_resource (outcome_world (Scene_from_fds host registry value w))
      = Some content
    ∧ occurs_in x content.
Proof.
  intros Hwf Hsrc.
  destruct (import_loop_returns host registry value w Hwf) as (st & w1 & Hl).
  destruct (from_fds_after_loop host registry value w st w1 Hl)
    as (w2 & Hfrom & Hres & _).
  pose proof (loop_keeps_fragments value w st w1 x Hl Hsrc) as Hx.
  exists (merged_existing_last (free_texts st) (existing_free_text w1)).
  split.
  - rewrite Hfrom. by destruct (errors st).
  - apply occurs_in_concat, elem_of_app. auto.
Qed.
End ImportOutcome.

(** ** Export of the scene *)

Section SceneExport.
Context (host : Host) (registry : list BFNamelist).

Lemma app_not_empty (s t : string) : t ≠ "" → s +:+ t ≠ "".
Proof. destruct s; [done|]. by intros _ [=]. Qed.

Lemma last_char_app (s t : string) :
  t ≠ "" → last_char (s +:+ t) = last_char t.
Proof.
  intros Ht. induction s as [|a s IH]; [done|].
  change (String a s +:+ t) with (String a (s +:+ t)).
  pose proof (app_not_empty s t Ht) as Hne.
  simpl. destruct (s +:+ t) eqn:E; [done|]. exact IH.
Qed.

Lemma Scene_bf_namelists_sorted :
  StronglySorted (λ a b, cls_enum_id a ≤ cls_enum_id b)
    (Scene_bf_namelists registry).
Proof.
  pose proof (sort_by_sorted Nat.ltb cls_enum_id nat_ltb_asym
                nat_ltb_negtrans
                (filter (λ c, cls_bpy_type c = TScene) registry)) as Hs.
  unfold Scene_bf_namelists.
  induction Hs as [|a l _ IH Ha]; constructor; [done|].
  eapply Forall_impl; [exact Ha|]. intros b Hb.
  unfold PySort.key_le in Hb. by apply Nat.ltb_ge in Hb.
Qed.

Lemma Scene_bf_namelists_perm :
  Scene_bf_namelists registry ≡ₚ
    filter (λ c, cls_bpy_type c = TScene) registry.
Proof. apply sort_by_perm. Qed.

(** [_free_text_to_fds], case by case. *)
Lemma Scene_free_text_to_fds_cases (w : World) :
  Scene_free_text_to_fds w =
    let name := sc_bf_head_free_text (scene w) in
    if bool_decide (name = "") then Returned [] w
    else match texts w !! name with
         | None => Raised (KeyError name) w
         | Some free_text =>
             if bool_decide (free_text = "") then Returned [] w
             else Returned
                    (["! --- Free text: '" +:+ name +:+ "'" +:+ NL; free_text]
                     ++ (if bool_decide (last_char free_text = NL)
                         then [] else [NL])) w
         end.
Proof.
  unfold Scene_free_text_to_fds, texts_as_string. unfold_M. cbv zeta.
  destruct (decide (sc_bf_head_free_text (scene w) = "")) as [Hn|Hn].
  { rewrite (bool_decide_eq_false_2 (sc_bf_head_free_text (scene w) ≠ ""))
      by (by intros ?).
    by rewrite (bool_decide_eq_true_2 (sc_bf_head_free_text (scene w) = "")). }
  rewrite (bool_decide_eq_true_2 (sc_bf_head_free_text (scene w) ≠ ""))
    by done.
  rewrite (bool_decide_eq_false_2 (sc_bf_head_free_text (scene w) = ""))
    by done.
  destruct (texts w !! sc_bf_head_free_text (scene w)) as [free_text|] eqn:Ht;
    [|done].
  destruct (bool_decide (free_text = "")); [done|].
  cbv beta. rewrite Ht.
  destruct (decide (last_char free_text = NL)) as [Hl|Hl].
  - rewrite (bool_decide_eq_false_2 (last_char free_text ≠ NL))
      by (by intros ?).
    by rewrite (bool_decide_eq_true_2 (last_char free_text = NL)).
  - rewrite (bool_decide_eq_true_2 (last_char free_text ≠ NL)) by done.
    by rewrite (bool_decide_eq_false_2 (last_char free_text = NL)).
Qed.

(** A free-text block that is not empty ends with a line feed. *)
Lemma Scene_free_text_to_fds_newline (w w' : World) (block : list string) :
  Scene_free_text_to_fds w = Returned block w' →
  block = [] ∨ last_char (String.concat "" block) = NL.
Proof.
  rewrite Scene_free_text_to_fds_cases. cbv zeta.
  destruct (bool_decide (sc_bf_head_free_text (scene w) = ""));
    [intros [= <- _]; by left|].
  destruct (texts w !! sc_bf_head_free_text (scene w)) as [free_text|];
    [|done].
  destruct (decide (free_text = "")) as [He|He].
  { rewrite bool_decide_eq_true_2 by done. intros [= <- _]. by left. }
  rewrite bool_decide_eq_false_2 by done.
  intros [= <- _]. right.
  destruct (decide (last_char free_text = NL)) as [Hl|Hl].
  - rewrite bool_decide_eq_true_2 by done.
    change (last_char (("! --- Free text: '"
                        +:+ sc_bf_head_free_text (scene w) +:+ "'" +:+ NL)
                       +:+ free_text) = NL).
    by rewrite last_char_app.
  - rewrite bool_decide_eq_false_2 by done.
    change (last_char (("! --- Free text: '"
                        +:+ sc_bf_head_free_text (scene w) +:+ "'" +:+ NL)
                       +:+ (free_text +:+ NL)) = NL).
    rewrite last_char_app by (by apply app_not_empty).
    by rewrite last_char_app.
Qed.

(** C10 (amended): for a scene that names no free text, or names a text
    of the store, [Scene.to_fds] without children returns the block of the
    scene namelists followed by the free-text block and nothing else; for a
    scene that names a text which is not in the store it raises the
    [KeyError] of that name.  The namelists are taken by [enum_id], their
    block ends with one ["\\n"] when it is not empty; the free-text block,
    when it is not empty, ends with a line feed; and the result owes
    nothing to the header facts of the host, to the materials or to the
    objects. *)
Theorem C10_scene_to_fds_without_children (fuel : nat) (w : World) :
  (¬ free_text_dangling w →
   ∃ free_text,
     Scene_free_text_to_fds w = Returned free_text w
     ∧ Scene_to_fds host registry fuel false w =
         Some (Returned
                 (String.concat ""
                    (Scene_myself_to_fds registry (scene w) ++ free_text))
                 w))
  ∧ (free_text_dangling w →
     Scene_to_fds host registry fuel false w =
       Some (Raised (KeyError (sc_bf_head_free_text (scene w))) w))
  ∧ Scene_myself_to_fds registry (scene w) =
      match Scene_bf_namelists registry ≫= λ bf_namelist,
              appended (nl_to_fds bf_namelist (ElScene (scene w))) with
      | [] => []
      | body :: bodies => (body :: bodies) ++ [NL]
      end
  ∧ StronglySorted (λ a b, cls_enum_id a ≤ cls_enum_id b)
      (Scene_bf_namelists registry)
  ∧ Scene_bf_namelists registry ≡ₚ
      filter (λ c, cls_bpy_type c = TScene) registry
  ∧ (∀ block w', Scene_free_text_to_fds w = Returned block w' →
       block = [] ∨ last_char (String.concat "" block) = NL)
  ∧ (∀ host' fuel' objs' mas',
       outcome_result <$>
         Scene_to_fds host' registry fuel' false
           {| scene := scene w; objects := objs'; materials := mas';
              texts := texts w |}
       = outcome_result <$> Scene_to_fds host registry fuel false w).
Proof.
  split; [|split; [|split; [|split; [|split; [|split]]]]].
  - intros Hok. unfold Scene_to_fds, free_text_dangling in *.
    rewrite Scene_free_text_to_fds_cases. cbv zeta.
    destruct (decide (sc_bf_head_free_text (scene w) = "")) as [Hn|Hn].
    { rewrite bool_decide_eq_true_2 by done. by eexists. }
    rewrite bool_decide_eq_false_2 by done.
    destruct (texts w !! sc_bf_head_free_text (scene w)) as [free_text|];
      [|by destruct Hok].
    destruct (bool_decide (free_text = "")); by eexists.
  - intros [Hn Hno]. unfold Scene_to_fds.
    rewrite Scene_free_text_to_fds_cases. cbv zeta.
    rewrite bool_decide_eq_false_2 by done. by rewrite Hno.
  - unfold Scene_myself_to_fds, close_bodies.
    by destruct (Scene_bf_namelists registry ≫= _).
  - apply Scene_bf_namelists_sorted.
  - apply Scene_bf_namelists_perm.
  - intros block w'. apply Scene_free_text_to_fds_newline.
  - intros host' fuel' objs' mas'. unfold Scene_to_fds.
    rewrite !Scene_free_text_to_fds_cases. cbv zeta. simpl.
    destruct (bool_decide (sc_bf_head_free_text (scene w) = "")); [done|].
    destruct (texts w !! sc_bf_head_free_text (scene w)) as [free_text|];
      [|done].
    by destruct (bool_decide (free_text = "")).
Qed.
End SceneExport.

(** ** The properties on the small case *)

Lemma Sample_registry_well_formed : registry_well_formed Sample.registry.
Proof.
  split.
  - unfold Sample.registry. repeat constructor; by intros [=].
  - by eexists.
Qed.

Lemma Sample_hierarchy_ranked : hierarchy_ranked Sample.rank Sample.objs.
Proof.
  intros ob p Hin Hpar. unfold Sample.objs in Hin.
  repeat (apply elem_of_cons in Hin as [->|Hin]);
    try (injection Hpar as <-; vm_compute; lia); try done.
  by apply elem_of_nil in Hin.
Qed.

Lemma Sample_names_distinct : NoDup (ob_name <$> Sample.objs).
Proof. apply (bool_decide_unpack _). by vm_compute. Qed.

(** The temporary mesh of the case is left out of the export. *)
Lemma C7_object_without_namelist_witness :
  ob_type Sample.ghost = "MESH"
  ∧ ob_bf_is_tmp Sample.ghost = true
  ∧ Object_bf_namelist Sample.registry Sample.ghost = None
  ∧ Object_myself_to_fds Sample.registry Sample.ghost = []
  ∧ ∀ fuel objs,
      Object_to_fds Sample.registry fuel objs Sample.ghost false = Some "".
Proof.
  split; [reflexivity|]. split; [reflexivity|].
  apply (C7_object_without_namelist_is_omitted Sample.registry Sample.ghost);
    [reflexivity|left; reflexivity].
Defined.

(** The disabled room of the case exports its three children only. *)
Lemma C4_disabled_object_witness :
  ob_bf_export Sample.room = false
  ∧ hierarchy_ranked Sample.rank Sample.objs
  ∧ Sample.rank (ob_id Sample.room) < 3
  ∧ Object_myself_to_fds Sample.registry Sample.room = []
  ∧ Object_to_fds Sample.registry 3 Sample.objs Sample.room true =
      Some ("&MESH ID='Mesh' /" +:+ NL +:+ "&OBST ID='Door' /" +:+ NL
            +:+ "&OBST ID='Wall' /" +:+ NL +:+ NL)
  ∧ ∃ bodies,
      Object_children_to_fds Sample.registry 3 Sample.objs (Some 1)
        = Some bodies
      ∧ ("&OBST ID='Wall' /" +:+ NL) ∈ bodies.
Proof.
  split; [reflexivity|]. split; [exact Sample_hierarchy_ranked|].
  split; [vm_compute; lia|].
  destruct (C4_disabled_object_exports_only_children
              Sample.registry Sample.rank 2 Sample.objs Sample.room)
    as (Hme & _ & bodies & Hch & Hto & Hkept);
    [reflexivity|exact Sample_hierarchy_ranked|vm_compute; lia|].
  split; [exact Hme|]. split; [vm_compute; reflexivity|].
  exists bodies. split; [exact Hch|].
  apply (Hkept Sample.wall);
    [|reflexivity|vm_compute; reflexivity|by intros [=]].
  unfold Sample.objs. apply elem_of_cons. right. apply elem_of_cons. by left.
Defined.

(** The children of the room, listed by the scene in either order. *)
Lemma C3_children_export_order_witness :
  hierarchy_ranked Sample.rank Sample.objs
  ∧ call_depth Sample.rank Sample.objs (Some 1) < 3
  ∧ NoDup (ob_name <$> Sample.objs)
  ∧ Sample.objs ≡ₚ reverse Sample.objs
  ∧ children_obs Sample.objs (Some 1) = [Sample.grid; Sample.door; Sample.wall]
  ∧ Object_children_to_fds Sample.registry 3 Sample.objs (Some 1) =
      Some ["&MESH ID='Mesh' /" +:+ NL; "&OBST ID='Door' /" +:+ NL;
            "&OBST ID='Wall' /" +:+ NL; NL]
  ∧ Object_children_to_fds Sample.registry 3 (reverse Sample.objs) (Some 1) =
      Object_children_to_fds Sample.registry 3 Sample.objs (Some 1).
Proof.
  split; [exact Sample_hierarchy_ranked|].
  split; [vm_compute; lia|].
  split; [exact Sample_names_distinct|].
  split; [symmetry; apply reverse_Permutation|].
  destruct (C3_children_export_order Sample.registry Sample.rank 2
              Sample.objs (reverse Sample.objs) (Some 1)
              Sample_hierarchy_ranked ltac:(vm_compute; lia)
              Sample_names_distinct
              (symmetry (reverse_Permutation Sample.objs)))
    as (Hord & _ & _ & _ & (bodies & _ & Hout) & Hperm).
  split; [rewrite Hord; vm_compute; reflexivity|].
  split; [vm_compute; reflexivity|]. exact Hperm.
Defined.

(** The scene of the case without its children. *)
Lemma C10_scene_to_fds_witness :
  outcome_result <$>
    Scene_to_fds Sample.host Sample.registry 0 false Sample.world =
    Some (inr ("&HEAD ID='case' /" +:+ NL +:+ "&TIME ID='case' /" +:+ NL
               +:+ NL +:+ "! --- Free text: 'HEAD free text'" +:+ NL
               +:+ "OLD" +:+ NL))
  ∧ cls_name <$> Scene_bf_namelists Sample.registry = ["SN_HEAD"; "SN_TIME"].
Proof.
  destruct (C10_scene_to_fds_without_children
              Sample.host Sample.registry 0 Sample.world) as (Hto & _).
  destruct Hto as (free_text & Hfree & Hto).
  { intros [_ Hno]. vm_compute in Hno. discriminate Hno. }
  split; [|vm_compute; reflexivity].
  rewrite Hto. vm_compute in Hfree. injection Hfree as <-.
  vm_compute. reflexivity.
Defined.

(** The text ["mixed"]: the two [SURF_ID] tokens come first. *)
Lemma C2_surf_id_tokens_first_witness :
  tokenize Sample.host "mixed"
    = inl [Sample.tk_obst; Sample.tk_surf; Sample.tk_misc; Sample.tk_devc;
           Sample.tk_surf2]
  ∧ import_order [Sample.tk_obst; Sample.tk_surf; Sample.tk_misc;
                  Sample.tk_devc; Sample.tk_surf2]
      = [Sample.tk_surf; Sample.tk_surf2; Sample.tk_obst; Sample.tk_misc;
         Sample.tk_devc]
  ∧ Scene_from_fds Sample.host Sample.registry "mixed" Sample.world =
      (st ← import_tokens Sample.host Sample.registry
              {| errors := false; free_texts := [] |}
              [Sample.tk_surf; Sample.tk_surf2; Sample.tk_obst;
               Sample.tk_misc; Sample.tk_devc];
       Scene_save_imported_unmanaged_tokens Sample.host (free_texts st);;
       if errors st then raise aggregate_error else ret tt) Sample.world.
Proof.
  split; [reflexivity|].
  destruct (C2_surf_id_tokens_first Sample.host Sample.registry "mixed"
              [Sample.tk_obst; Sample.tk_surf; Sample.tk_misc;
               Sample.tk_devc; Sample.tk_surf2] Sample.world)
    as [Hord Hfrom]; [reflexivity|].
  split; [rewrite Hord; reflexivity|].
  rewrite Hfrom. reflexivity.
Defined.

(** [DEVC] has no class and carries [XYZ]: it gets ["ON_free"]. *)
Lemma C8_geometry_keys_witness :
  registry_get_by_fds_label Sample.registry (fds_label Sample.tk_devc) = None
  ∧ registry_get Sample.registry "ON_free" = Some Sample.ON_free
  ∧ Scene_get_imported_bf_namelist_cls Sample.registry
      (fds_label Sample.tk_devc) (fds_params Sample.tk_devc) Sample.world
      = Returned (Some Sample.ON_free) Sample.world.
Proof.
  split; [reflexivity|]. split; [reflexivity|].
  destruct (C8_geometry_keys_select_ON_free Sample.host Sample.registry
              Sample.tk_devc Sample.ON_free Sample.world)
    as (_ & Hiff & _); [reflexivity..|].
  apply Hiff. exists "XYZ". split; [|by eexists].
  apply (bool_decide_unpack _). by vm_compute.
Defined.

(** [OBST] is managed by an object class: a new object ["New OBST"]. *)
Lemma C9_element_of_managed_token_witness :
  managed_by Sample.registry Sample.tk_obst Sample.ON_OBST
  ∧ Scene_get_imported_element Sample.host Sample.registry Sample.ON_OBST
      "OBST" Sample.bare_world =
      Returned (RefObject 1)
        (with_objects
           (λ obs, obs ++ [imported_object Sample.host Sample.registry
                             Sample.ON_OBST "OBST" 1]) Sample.bare_world)
  ∧ ob_name (imported_object Sample.host Sample.registry Sample.ON_OBST
               "OBST" 1) = "New OBST"
  ∧ ob_bf_namelist_cls (imported_object Sample.host Sample.registry
                          Sample.ON_OBST "OBST" 1) = "ON_OBST"
  ∧ ob_show_transparent (imported_object Sample.host Sample.registry
                           Sample.ON_OBST "OBST" 1) = true.
Proof.
  assert (managed_by Sample.registry Sample.tk_obst Sample.ON_OBST) as Hm
    by (left; reflexivity).
  split; [exact Hm|].
  destruct (C9_element_of_managed_token Sample.host Sample.registry
              Sample.tk_obst Sample.ON_OBST
              {| errors := false; free_texts := [] |} Sample.bare_world Hm)
    as [(_ & _ & Hname & Hcls & _ & Hel) _].
  split; [exact Hel|]. split; [exact Hname|]. split; [exact Hcls|].
  reflexivity.
Defined.

(** The claim as the specification words it, for every scene, fails on
    the scene that names the text ["gone"], which is not in the store:
    [to_fds] without children raises and returns no text. *)
Lemma C10_dangling_free_text_raises :
  sc_bf_head_free_text (scene Sample.dangling_world) = "gone"
  ∧ texts Sample.dangling_world !! "gone" = None
  ∧ Scene_to_fds Sample.host Sample.registry 0 false Sample.dangling_world
      = Some (Raised (KeyError "gone") Sample.dangling_world)
  ∧ ¬ (∃ text w',
         Scene_to_fds Sample.host Sample.registry 0 false
           Sample.dangling_world = Some (Returned text w')).
Proof.
  split; [reflexivity|]. split; [reflexivity|].
  split; [vm_compute; reflexivity|].
  intros (text & w' & Hret). vm_compute in Hret. discriminate Hret.
Qed.

(** The claim as the specification words it fails on the text ["new"]:
    the free text holds ["OLD"], the token [MISC] is not managed, and the
    free text after the import has the token first and ["OLD"] last. *)
Lemma C1_existing_content_is_not_first :
  import_loop Sample.host Sample.registry "new" Sample.world
    = Returned {| errors := false; free_texts := ["&MISC TMPA=20. /"] |}
               Sample.world
  ∧ existing_free_text Sample.world = "OLD"
  ∧ free_text_resource
      (outcome_world
         (Scene_from_fds Sample.host Sample.registry "new" Sample.world))
      = Some ("&MISC TMPA=20. /" +:+ NL +:+ "OLD")
  ∧ free_text_resource
      (outcome_world
         (Scene_from_fds Sample.host Sample.registry "new" Sample.world))
      ≠ Some (merged_existing_first ["&MISC TMPA=20. /"] "OLD").
Proof.
  split; [vm_compute; reflexivity|]. split; [vm_compute; reflexivity|].
  split; [vm_compute; reflexivity|]. vm_compute. intros [=].
Qed.

(** The text ["new"] on the scene whose free text holds ["OLD"]. *)
Lemma C1_fallback_merged_witness :
  registry_well_formed Sample.registry
  ∧ ∃ st w1 w2,
      import_loop Sample.host Sample.registry "new" Sample.world
        = Returned st w1
      ∧ Scene_from_fds Sample.host Sample.registry "new" Sample.world =
          (if errors st then Raised aggregate_error w2 else Returned tt w2)
      ∧ free_text_resource w2 =
          Some (String.concat NL
                  (free_texts st ++
                   (if bool_decide (existing_free_text w1 ≠ "")
                    then [existing_free_text w1] else []))).
Proof.
  split; [exact Sample_registry_well_formed|].
  exact (C1_fallback_merged_existing_last Sample.host Sample.registry
           "new" Sample.world Sample_registry_well_formed).
Defined.


(** The text ["new"]: the token [MISC] is found in the free text. *)
Lemma C6_no_fragment_is_lost_witness :
  registry_well_formed Sample.registry
  ∧ tokenize Sample.host "new" = inl [Sample.tk_misc]
  ∧ unmanaged Sample.registry Sample.tk_misc
  ∧ ∃ content,
      free_text_resource
        (outcome_world
           (Scene_from_fds Sample.host Sample.registry "new" Sample.world))
        = Some content
      ∧ occurs_in "&MISC TMPA=20. /" content.
Proof.
  split; [exact Sample_registry_well_formed|].
  split; [reflexivity|].
  assert (unmanaged Sample.registry Sample.tk_misc) as Hun
    by (split; vm_compute; reflexivity).
  split; [exact Hun|].
  apply (C6_no_fragment_is_lost Sample.host Sample.registry "new"
           Sample.world "&MISC TMPA=20. /" Sample_registry_well_formed).
  right. left. exists [Sample.tk_misc], Sample.tk_misc.
  split; [reflexivity|]. split; [apply list_elem_of_singleton; reflexivity|].
  split; [exact Hun|reflexivity].
Defined.

(** ** More on the stable sort: filters and ties *)

Section SortFilter.
Context {A K : Type} (ltb : K → K → bool) (key : A → K).
Hypothesis ltb_asym : ∀ a b, ltb a b = true → ltb b a = false.
Hypothesis ltb_negtrans :
  ∀ a b c, ltb b a = false → ltb c b = false → ltb c a = false.

Lemma ltb_irrefl a : ltb a a = false.
Proof.
  destruct (ltb a a) eqn:E; [|done].
  pose proof (ltb_asym _ _ E). congruence.
Qed.

Lemma insert_by_front x l :
  Forall (λ z, ltb (key z) (key x) = false) l →
  PySort.insert_by ltb key x l = x :: l.
Proof. destruct 1 as [|z l Hz _]; [done|]. simpl. by rewrite Hz. Qed.

Lemma filter_insert_by (P : A → Prop) `{∀ x, Decision (P x)} x s :
  StronglySorted (PySort.key_le ltb key) s →
  filter P (PySort.insert_by ltb key x s) =
    if decide (P x) then PySort.insert_by ltb key x (filter P s)
    else filter P s.
Proof.
  induction 1 as [|y ys Hys IH Hy]; simpl.
  { rewrite filter_cons, filter_nil. destruct (decide (P x)); done. }
  destruct (ltb (key y) (key x)) eqn:E.
  - rewrite !filter_cons, IH.
    destruct (decide (P y)), (decide (P x)); simpl; rewrite ?filter_cons;
      repeat case_decide; try done; simpl; by rewrite ?E.
  - rewrite filter_cons. destruct (decide (P x)); [|done].
    rewrite insert_by_front; [done|].
    apply Forall_forall. intros z [_ Hz]%list_elem_of_filter.
    apply elem_of_cons in Hz as [->|Hz]; [done|].
    eapply ltb_negtrans; [exact E|].
    by eapply Forall_forall in Hy.
Qed.

(** Taking out of the input the elements that fail a test and sorting, or
    sorting and taking them out, is the same. *)
Lemma sort_by_filter (P : A → Prop) `{∀ x, Decision (P x)} l :
  filter P (PySort.sort_by ltb key l) = PySort.sort_by ltb key (filter P l).
Proof.
  induction l as [|x l IH]; [done|].
  change (PySort.sort_by ltb key (x :: l))
    with (PySort.insert_by ltb key x (PySort.sort_by ltb key l)).
  rewrite filter_insert_by by (by apply sort_by_sorted).
  rewrite filter_cons, IH. by destruct (decide (P x)).
Qed.

Lemma sort_by_ties k l :
  Forall (λ x, key x = k) l → PySort.sort_by ltb key l = l.
Proof.
  induction 1 as [|x l Hx Hl IH]; [done|].
  change (PySort.sort_by ltb key (x :: l))
    with (PySort.insert_by ltb key x (PySort.sort_by ltb key l)).
  rewrite IH. apply insert_by_front.
  eapply Forall_impl; [exact Hl|]. intros z Hz. simpl in Hz.
  rewrite Hz, Hx. apply ltb_irrefl.
Qed.

(** The sort is stable: the elements of one key keep the order they had. *)
Lemma sort_by_stable `{EqDecision K} k l :
  filter (λ x, key x = k) (PySort.sort_by ltb key l)
    = filter (λ x, key x = k) l.
Proof.
  rewrite sort_by_filter. apply (sort_by_ties k).
  apply Forall_forall. by intros x [? _]%list_elem_of_filter.
Qed.
End SortFilter.

(** ** Objects: appearance, leaves and the depth of the export *)

Section ObjectMore.
Context (registry : list BFNamelist).

Lemma Object_bf_namelist_set_default_appearance (self : Object) :
  Object_bf_namelist registry (Object_set_default_appearance registry self)
    = Object_bf_namelist registry self.
Proof.
  unfold Object_set_default_appearance.
  destruct (Object_bf_namelist registry self) as [c|] eqn:Hc; [|done].
  rewrite <-Hc. unfold Object_bf_namelist.
  by destruct (truthy (cls_draw_type c)).
Qed.

(** [set_default_appearance] on an object writes [draw_type] and
    [show_transparent] only; an object without namelist is left as it is;
    an object with a namelist is shown transparent, with the draw type of
    its class when the class gives one; and a second call changes nothing
    more. *)
Theorem Object_set_default_appearance_idempotent (self : Object) :
  let ob := Object_set_default_appearance registry self in
  (ob_id ob = ob_id self ∧ ob_name ob = ob_name self
   ∧ ob_type ob = ob_type self ∧ ob_parent ob = ob_parent self
   ∧ ob_bf_export ob = ob_bf_export self
   ∧ ob_bf_is_tmp ob = ob_bf_is_tmp self
   ∧ ob_bf_namelist_cls ob = ob_bf_namelist_cls self
   ∧ ob_bf_fyi ob = ob_bf_fyi self)
  ∧ Object_set_default_appearance registry ob = ob
  ∧ (Object_bf_namelist registry self = None → ob = self)
  ∧ (∀ c, Object_bf_namelist registry self = Some c →
       ob_show_transparent ob = true
       ∧ ob_draw_type ob =
           match cls_draw_type c with
           | Some draw_type =>
               if bool_decide (draw_type = "") then ob_draw_type self
               else draw_type
           | None => ob_draw_type self
           end).
Proof.
  cbv zeta. split; [|split; [|split]].
  - unfold Object_set_default_appearance.
    destruct (Object_bf_namelist registry self) as [c|]; [|done].
    by destruct (truthy (cls_draw_type c)).
  - unfold Object_set_default_appearance at 1.
    rewrite Object_bf_namelist_set_default_appearance.
    unfold Object_set_default_appearance.
    destruct (Object_bf_namelist registry self) as [c|]; [|done].
    by destruct (truthy (cls_draw_type c)).
  - unfold Object_set_default_appearance. by intros ->.
  - intros c Hc. unfold Object_set_default_appearance. rewrite Hc.
    unfold truthy. destruct (cls_draw_type c) as [draw_type|]; [|done].
    by destruct (bool_decide (draw_type = "")).
Qed.

Lemma children_obs_nil objs self :
  children_of objs self = [] → children_obs objs self = [].
Proof. unfold children_obs. by intros ->. Qed.

(** For an object that is the parent of no object of the scene, [to_fds]
    with children returns what it returns without them. *)
Theorem Object_to_fds_leaf (fuel : nat) (objs : list Object) (self : Object) :
  Forall (λ ob, ob_parent ob ≠ Some (ob_id self)) objs →
  Object_to_fds registry (S fuel) objs self true
    = Object_to_fds registry (S fuel) objs self false
  ∧ Object_children_to_fds registry (S fuel) objs (Some (ob_id self))
      = Some [].
Proof.
  intros Hleaf.
  assert (children_of objs (Some (ob_id self)) = []) as Hnone.
  { unfold children_of.
    induction Hleaf as [|ob obs Hob _ IH]; [done|].
    rewrite filter_cons. by destruct (decide (ob_parent ob = _)). }
  assert (Object_children_to_fds registry (S fuel) objs (Some (ob_id self))
          = Some []) as Hch.
  { rewrite Object_children_to_fds_S. by rewrite children_obs_nil. }
  split; [|done].
  unfold Object_to_fds, Object_to_fds_with. rewrite Hch. simpl.
  by rewrite app_nil_r.
Qed.

Lemma Object_children_to_fds_chain (objs : list Object) (fuel : nat) :
  ∀ chain self,
    descends objs self chain → fuel ≤ length chain →
    Object_children_to_fds registry fuel objs self = None.
Proof.
  induction fuel as [|fuel IH]; intros chain self Hch Hle; [done|].
  destruct chain as [|ob chain]; [simpl in Hle; lia|].
  destruct Hch as (Hin & Hpar & Hch). simpl in Hle.
  rewrite Object_children_to_fds_S.
  assert (mapM
    (λ ob, Object_to_fds_with registry
             (Object_children_to_fds registry fuel objs) ob true)
    (children_obs objs self) = None) as ->; [|done].
  apply mapM_None, Exists_exists. exists ob.
  split; [by apply children_obs_elem_of|].
  unfold Object_to_fds_with.
  by rewrite (IH chain (Some (ob_id ob)) Hch) by lia.
Qed.

(** The calls of [to_fds] and [_children_to_fds] nest as deep as the
    objects hang under [self].  On a parent relation without cycle the
    export returns as soon as the depth allowed to the calls is above the
    rank of the object, and every larger depth gives the same text.  Under
    a chain of [n] descendants the export with children does not return
    within [n] nested calls: this is the [RecursionError] of a hierarchy
    deeper than the limit of the interpreter. *)
Theorem Object_to_fds_call_depth (rank : nat → nat) (objs : list Object)
    (self : Object) :
  (hierarchy_ranked rank objs →
   ∀ fuel with_children, rank (ob_id self) < fuel →
     ∃ body, ∀ fuel', fuel ≤ fuel' →
       Object_to_fds registry fuel' objs self with_children = Some body)
  ∧ (∀ chain fuel,
       descends objs (Some (ob_id self)) chain → fuel ≤ length chain →
       Object_to_fds registry fuel objs self true = None).
Proof.
  split.
  - intros Hrk fuel with_children Hd. destruct with_children.
    + destruct (Object_children_to_fds_total registry rank objs Hrk fuel
                  (Some (ob_id self)) Hd) as [cs Hcs].
      exists (String.concat "" (Object_myself_to_fds registry self ++ cs)).
      intros fuel' Hle. unfold Object_to_fds, Object_to_fds_with.
      by rewrite (Object_children_to_fds_fuel_mono registry objs fuel fuel'
                    _ cs Hle Hcs).
    + eexists. intros fuel' _. apply Object_to_fds_without_children.
  - intros chain fuel Hch Hle. unfold Object_to_fds, Object_to_fds_with.
    by rewrite (Object_children_to_fds_chain objs fuel chain _ Hch Hle).
Qed.

(** An object of the scene that is its own parent: the calls of [to_fds]
    with children never end, whatever depth they are allowed. *)
Theorem Object_to_fds_own_parent_never_returns (objs : list Object)
    (self : Object) :
  self ∈ objs →
  ob_parent self = Some (ob_id self) →
  ∀ fuel, Object_to_fds registry fuel objs self true = None.
Proof.
  intros Hin Hpar.
  assert (∀ fuel, Object_children_to_fds registry fuel objs
                    (Some (ob_id self)) = None) as Hnever.
  { induction fuel as [|fuel IH]; [done|].
    rewrite Object_children_to_fds_S.
    assert (mapM
      (λ ob, Object_to_fds_with registry
               (Object_children_to_fds registry fuel objs) ob true)
      (children_obs objs (Some (ob_id self))) = None) as ->; [|done].
    apply mapM_None, Exists_exists. exists self.
    split; [by apply children_obs_elem_of|].
    unfold Object_to_fds_with. by rewrite IH. }
  intros fuel. unfold Object_to_fds, Object_to_fds_with. by rewrite Hnever.
Qed.
End ObjectMore.

(** ** The scene: namelists of one [enum_id], materials, the full case *)

Lemma concat_empty_cons (x : string) (l : list string) :
  String.concat "" (x :: l) = x +:+ String.concat "" l.
Proof. destruct l; [by rewrite string_app_nil_r|done]. Qed.

Lemma concat_empty_app (l1 l2 : list string) :
  String.concat "" (l1 ++ l2) = String.concat "" l1 +:+ String.concat "" l2.
Proof.
  induction l1 as [|x l1 IH]; [done|].
  rewrite <-app_comm_cons, !concat_empty_cons, IH.
  by rewrite string_app_assoc.
Qed.

Lemma bind_filter_nil {A B} (f : A → list B) (P : A → Prop)
    `{∀ x, Decision (P x)} (l : list A) :
  (∀ x, ¬ P x → f x = []) → l ≫= f = filter P l ≫= f.
Proof.
  intros Hf. induction l as [|x l IH]; [done|].
  rewrite filter_cons. destruct (decide (P x)).
  - by rewrite !bind_cons, IH.
  - by rewrite bind_cons, IH, Hf.
Qed.

Section SceneMore.
Context (host : Host) (registry : list BFNamelist).

(** [bf_namelists] holds classes bound to the scene only, and the classes
    of one [enum_id] stand in it in the order of the registry. *)
Theorem Scene_bf_namelists_stable (k : nat) :
  Forall (λ c, cls_bpy_type c = TScene) (Scene_bf_namelists registry)
  ∧ filter (λ c, cls_enum_id c = k) (Scene_bf_namelists registry)
      = filter (λ c, cls_enum_id c = k)
          (filter (λ c, cls_bpy_type c = TScene) registry).
Proof.
  split.
  - apply Forall_forall. intros c Hc.
    apply sort_by_elem_of in Hc. by apply list_elem_of_filter in Hc as [? _].
  - apply sort_by_stable; [apply nat_ltb_asym|apply nat_ltb_negtrans].
Qed.


Lemma Material_to_fds_not_exportable (ma : Material) :
  ¬ exportable_material host registry ma →
  appended (Material_to_fds host registry ma) = [].
Proof.
  unfold exportable_material, Material_to_fds, Material_bf_namelist.
  intros Hno.
  destruct (decide (ma_name ma ∉ surf_predefined host)) as [Hn|Hn].
  - rewrite bool_decide_eq_true_2 by done.
    destruct (registry_get registry (ma_bf_namelist_cls ma)) as [c|]; [|done].
    destruct (nl_to_fds c (ElMaterial ma)) as [body|]; [|done].
    unfold appended. case_bool_decide; [done|]. by destruct Hno.
  - by rewrite bool_decide_eq_false_2.
Qed.

(** The materials whose name is predefined, those whose class is not in
    the registry, and those for which the namelist of the class gives
    [None] or an empty text, add nothing to the export of the children of
    the scene: without them in [bpy.data.materials] it is the same. *)
Theorem Scene_children_to_fds_skips_materials (fuel : nat) (w : World) :
  Scene_children_to_fds host registry fuel w =
    Scene_children_to_fds host registry fuel
      (with_materials (filter (exportable_material host registry)) w).
Proof.
  unfold Scene_children_to_fds. simpl.
  rewrite <-(sort_by_filter String.ltb ma_name string_ltb_asym
               string_ltb_negtrans (exportable_material host registry)).
  rewrite <-(bind_filter_nil _ (exportable_material host registry)); [done|].
  apply Material_to_fds_not_exportable.
Qed.

Lemma Scene_children_to_fds_perm (fuel : nat) (w w' : World) :
  objects w ≡ₚ objects w' → materials w ≡ₚ materials w' →
  NoDup (ob_name <$> objects w) → NoDup (ma_name <$> materials w) →
  Scene_children_to_fds host registry fuel w'
    = Scene_children_to_fds host registry fuel w.
Proof.
  intros Hob Hma Hnob Hnma. unfold Scene_children_to_fds.
  rewrite (Object_children_to_fds_perm registry (objects w) (objects w'))
    by done.
  by rewrite (sort_by_perm_invariant String.ltb ma_name string_ltb_asym
                string_ltb_negtrans string_ltb_antisym
                (materials w) (materials w')).
Qed.

Lemma Scene_free_text_to_fds_same (w w' : World) :
  scene w' = scene w → texts w' = texts w →
  outcome_result (Scene_free_text_to_fds w')
    = outcome_result (Scene_free_text_to_fds w).
Proof.
  intros Hsc Htx. rewrite !Scene_free_text_to_fds_cases. cbv zeta.
  rewrite Hsc, Htx.
  destruct (bool_decide (sc_bf_head_free_text (scene w) = "")); [done|].
  destruct (texts w !! sc_bf_head_free_text (scene w)) as [free_text|];
    [|done].
  by destruct (bool_decide (free_text = "")).
Qed.

Lemma Scene_free_text_to_fds_world (w : World) :
  outcome_world (Scene_free_text_to_fds w) = w.
Proof.
  rewrite Scene_free_text_to_fds_cases. cbv zeta.
  destruct (bool_decide (sc_bf_head_free_text (scene w) = "")); [done|].
  destruct (texts w !! sc_bf_head_free_text (scene w)) as [free_text|];
    [|done].
  by destruct (bool_decide (free_text = "")).
Qed.

(** The export of the scene, with or without children, is the same for
    every order in which the scene lists its objects and the host its
    materials, the names being distinct. *)
Theorem Scene_to_fds_order_independent (fuel : nat) (with_children : bool)
    (w w' : World) :
  scene w' = scene w → texts w' = texts w →
  objects w ≡ₚ objects w' → materials w ≡ₚ materials w' →
  NoDup (ob_name <$> objects w) → NoDup (ma_name <$> materials w) →
  outcome_result <$> Scene_to_fds host registry fuel with_children w'
    = outcome_result <$> Scene_to_fds host registry fuel with_children w.
Proof.
  intros Hsc Htx Hob Hma Hnob Hnma. unfold Scene_to_fds.
  pose proof (Scene_free_text_to_fds_same w w' Hsc Htx) as Hft.
  pose proof (Scene_free_text_to_fds_world w) as Hw.
  pose proof (Scene_free_text_to_fds_world w') as Hw'.
  rewrite Hsc.
  destruct (Scene_free_text_to_fds w') as [ft' w1'|e' w1'],
    (Scene_free_text_to_fds w) as [ft w1|e w1]; simpl in *;
    simplify_eq; [|done].
  destruct with_children; [|done].
  rewrite (Scene_children_to_fds_perm fuel w w') by done.
  by destruct (Scene_children_to_fds host registry fuel w).
Qed.

(** The full case is the header, then the text of the scene without
    children, then the blocks of the children, then the trailer; it raises
    when the scene without children raises; and the export leaves the world
    as it was. *)
Theorem Scene_to_fds_with_children_composes (fuel : nat) (w : World) :
  Scene_to_fds host registry fuel true w =
    match Scene_to_fds host registry fuel false w with
    | Some (Returned scene_text _) =>
        children ← Scene_children_to_fds host registry fuel w;
        Some (Returned
                (String.concat "" (Scene_header_to_fds host (scene w))
                 +:+ scene_text
                 +:+ String.concat "" children
                 +:+ tail_line host) w)
    | other => other
    end
  ∧ ∀ with_children o,
      Scene_to_fds host registry fuel with_children w = Some o →
      outcome_world o = w.
Proof.
  pose proof (Scene_free_text_to_fds_world w) as Hw.
  split.
  - unfold Scene_to_fds.
    destruct (Scene_free_text_to_fds w) as [ft w1|e w1]; [|done].
    simpl in Hw. subst w1. simpl.
    destruct (Scene_children_to_fds host registry fuel w) as [children|];
      [|done].
    simpl. do 2 f_equal.
    rewrite !concat_empty_app, concat_empty_cons.
    rewrite !string_app_assoc. by rewrite string_app_nil_r.
  - intros with_children o. unfold Scene_to_fds.
    destruct (Scene_free_text_to_fds w) as [ft w1|e w1]; simpl in Hw;
      subst w1.
    + destruct with_children; [|by intros [= <-]].
      destruct (Scene_children_to_fds host registry fuel w); [|done].
      by intros [= <-].
    + by intros [= <-].
Qed.

Lemma Scene_free_text_to_fds_returns (w : World) :
  ¬ free_text_dangling w →
  ∃ free_text, Scene_free_text_to_fds w = Returned free_text w.
Proof.
  intros Hok. unfold free_text_dangling in Hok.
  rewrite Scene_free_text_to_fds_cases. cbv zeta.
  destruct (decide (sc_bf_head_free_text (scene w) = "")) as [Hn|Hn].
  { rewrite bool_decide_eq_true_2 by done. by eexists. }
  rewrite bool_decide_eq_false_2 by done.
  destruct (texts w !! sc_bf_head_free_text (scene w)) as [free_text|];
    [|by destruct Hok].
  destruct (bool_decide (free_text = "")); by eexists.
Qed.

(** The export of the scene with children nests its calls as deep as the
    objects hang under each other.  With a parent relation without cycle
    it ends as soon as the depth allowed to the calls is above the depth
    of the objects, and every larger depth gives the same outcome; the
    [to_fds] of the namelists being taken to return, that outcome is a
    text, or the [KeyError] of a scene that names a text which is not in
    the store.  Over a chain of [n] objects the export with children of a
    scene whose text is there does not return within [n] nested calls:
    this is the [RecursionError] of a hierarchy deeper than the limit of
    the interpreter. *)
Theorem Scene_to_fds_call_depth (rank : nat → nat) (w : World) :
  (hierarchy_ranked rank (objects w) →
   ∀ fuel with_children, call_depth rank (objects w) None < fuel →
     ∃ o,
       (∀ fuel', fuel ≤ fuel' →
          Scene_to_fds host registry fuel' with_children w = Some o)
       ∧ (∀ e, outcome_result o = inl e ↔
            e = KeyError (sc_bf_head_free_text (scene w))
            ∧ free_text_dangling w))
  ∧ (∀ chain fuel,
       ¬ free_text_dangling w →
       descends (objects w) None chain → fuel ≤ length chain →
       Scene_to_fds host registry fuel true w = None).
Proof.
  split; [intros Hrk fuel with_children Hd|].
  2: { intros chain fuel Hok Hch Hle.
       destruct (Scene_free_text_to_fds_returns w Hok) as [free_text Hft].
       unfold Scene_to_fds, Scene_children_to_fds. rewrite Hft.
       by rewrite (Object_children_to_fds_chain registry (objects w) fuel
                     chain None Hch Hle). }
  destruct (Object_children_to_fds_total registry rank (objects w) Hrk fuel
              None Hd) as [obs Hobs].
  assert (∀ fuel', fuel ≤ fuel' →
            Object_children_to_fds registry fuel' (objects w) None = Some obs)
    as Hmono.
  { intros fuel' Hle.
    by apply (Object_children_to_fds_fuel_mono registry (objects w) fuel). }
  assert (∀ fuel', fuel ≤ fuel' →
            Scene_to_fds host registry fuel' with_children w
            = Scene_to_fds host registry fuel with_children w) as Hsame.
  { intros fuel' Hle. unfold Scene_to_fds, Scene_children_to_fds.
    pose proof (Scene_free_text_to_fds_world w) as Hw.
    destruct (Scene_free_text_to_fds w) as [ft w1|e w1]; [|done].
    simpl in Hw. subst w1.
    by rewrite (Hmono fuel' Hle), (Hmono fuel (Nat.le_refl _)). }
  assert (∃ o, Scene_to_fds host registry fuel with_children w = Some o
               ∧ ∀ e, outcome_result o = inl e ↔
                   e = KeyError (sc_bf_head_free_text (scene w))
                   ∧ free_text_dangling w) as (o & Ho & He).
  { unfold Scene_to_fds, Scene_children_to_fds, free_text_dangling.
    rewrite Scene_free_text_to_fds_cases. cbv zeta.
    destruct (decide (sc_bf_head_free_text (scene w) = "")) as [Hn|Hn].
    { rewrite bool_decide_eq_true_2 by done.
      destruct with_children; rewrite ?(Hmono fuel (Nat.le_refl _));
        (eexists; split; [done|]); intros e; simpl;
        (split; [done|by intros [_ [? _]]]). }
    rewrite bool_decide_eq_false_2 by done.
    destruct (texts w !! sc_bf_head_free_text (scene w)) as [free_text|].
    - destruct (bool_decide (free_text = ""));
        destruct with_children; rewrite ?(Hmono fuel (Nat.le_refl _));
        (eexists; split; [done|]); intros e; simpl;
        (split; [done|by intros [_ [_ ?]]]).
    - eexists. split; [done|]. intros e. simpl. split.
      + by intros [= <-].
      + by intros [-> _]. }
  exists o. split; [|done].
  intros fuel' Hle. by rewrite Hsame.
Qed.
End SceneMore.

(** ** Import: what is raised, what is kept, what is left alone *)

Section ImportMore.
Context (host : Host) (registry : list BFNamelist).

Lemma import_tokens_unmanaged_only tokens st w :
  Forall (unmanaged registry) tokens →
  import_tokens host registry st tokens w =
    Returned {| errors := errors st;
                free_texts := free_texts st ++ (fds_original <$> tokens) |}
             w.
Proof.
  intros Hall. revert st.
  induction Hall as [|token tokens Hun _ IH]; intros st; simpl.
  - unfold_M. rewrite app_nil_r. by destruct st.
  - unfold_M. rewrite import_token_unmanaged by done.
    rewrite IH. simpl. by rewrite <-(assoc_L (++)).
Qed.

Lemma import_order_Forall (P : Token → Prop) tokens :
  Forall P tokens → Forall P (import_order tokens).
Proof.
  rewrite !Forall_forall. intros Hall token Hin.
  apply Hall. by apply sort_by_elem_of in Hin.
Qed.

(** A text whose tokens are all not managed is imported without error:
    [from_fds] returns, no object and no material is made, and the free
    text holds the original texts of the tokens, in the order of the loop,
    before what it held. *)
Theorem from_fds_unmanaged_only (value : string) (tokens : list Token)
    (w : World) :
  tokenize host value = inl tokens →
  Forall (unmanaged registry) tokens →
  ∃ w2,
    Scene_from_fds host registry value w = Returned tt w2
    ∧ objects w2 = objects w ∧ materials w2 = materials w
    ∧ free_text_resource w2 =
        Some (String.concat NL
                ((fds_original <$> import_order tokens)
                 ++ (if bool_decide (existing_free_text w ≠ "")
                     then [existing_free_text w] else []))).
Proof.
  intros Htok Hall.
  assert (import_loop host registry value w =
            Returned {| errors := false;
                        free_texts := fds_original <$> import_order tokens |}
                     w) as Hloop.
  { rewrite import_loop_tokens. unfold initial_locals, tokens_in_order.
    rewrite Htok.
    by rewrite import_tokens_unmanaged_only by (by apply import_order_Forall). }
  destruct (from_fds_after_loop host registry value w _ _ Hloop)
    as (w2 & Hfrom & Hres & Hob & Hma).
  exists w2. simpl in Hfrom. done.
Qed.

(** When the tokenizer raises, no token is imported: no object and no
    material is made, the fragments of the error are written to the free
    text before what it held, and the aggregate error is raised. *)
Theorem from_fds_parse_error (value : string) (fragments : list string)
    (w : World) :
  tokenize host value = inr fragments →
  ∃ w2,
    Scene_from_fds host registry value w = Raised aggregate_error w2
    ∧ objects w2 = objects w ∧ materials w2 = materials w
    ∧ free_text_resource w2 =
        Some (String.concat NL
                (fragments
                 ++ (if bool_decide (existing_free_text w ≠ "")
                     then [existing_free_text w] else []))).
Proof.
  intros Htok.
  assert (import_loop host registry value w =
            Returned {| errors := true; free_texts := fragments |} w)
    as Hloop.
  { unfold import_loop. by rewrite Htok. }
  destruct (from_fds_after_loop host registry value w _ _ Hloop)
    as (w2 & Hfrom & Hres & Hob & Hma).
  exists w2. simpl in Hfrom. done.
Qed.

Lemma import_token_raises st token w e w' :
  import_token host registry st token w = Raised e w' →
  w' = w
  ∧ ((e = ValueError "BFDS: BFScene.from_fds: Unrecognized namelist type!"
      ∧ ∃ c, managed_by registry token c ∧ cls_bpy_type c = TOther)
     ∨ (e = KeyError "ON_free"
        ∧ registry_get_by_fds_label registry (fds_label token) = None
        ∧ has_geometry (fds_params token) = true
        ∧ registry_get registry "ON_free" = None)).
Proof.
  destruct (token_cases registry token)
    as [[c Hm]|[Hun|(Hl & Hg & Hno)]].
  - destruct (decide (cls_bpy_type c = TOther)) as [Hty|Hty].
    + rewrite (import_token_fatal host registry st token w c
                 (ValueError
                    "BFDS: BFScene.from_fds: Unrecognized namelist type!") w).
      * intros [= <- <-]. split; [done|]. left. eauto.
      * done.
      * unfold Scene_get_imported_element. by rewrite Hty.
    + destruct (get_imported_element_returns host registry c
                  (fds_label token) w Hty) as (element & w2 & Hel).
      destruct (nl_from_fds c element (fds_params token) w2)
        as [w3 err] eqn:Hnl.
      by rewrite (import_token_managed host registry st token w c element
                    w2 w3 err).
  - by rewrite import_token_unmanaged.
  - unfold import_token, Scene_get_imported_bf_namelist_cls, registry_getitem.
    unfold_M. rewrite Hl, Hg, Hno. intros [= <- <-].
    split; [done|]. right. done.
Qed.

Lemma import_tokens_raises tokens st w e w' :
  import_tokens host registry st tokens w = Raised e w' →
  (e = ValueError "BFDS: BFScene.from_fds: Unrecognized namelist type!"
   ∧ ∃ c, c ∈ registry ∧ cls_bpy_type c = TOther)
  ∨ (e = KeyError "ON_free" ∧ registry_get registry "ON_free" = None).
Proof.
  revert st w. induction tokens as [|token tokens IH]; intros st w; simpl.
  { by unfold_M. }
  unfold_M.
  destruct (import_token host registry st token w) as [st1 w1|e1 w1] eqn:H1.
  - apply IH.
  - intros [= <- <-].
    apply import_token_raises in H1
      as [_ [[-> (c & Hm & Hty)]|(-> & _ & _ & Hno)]].
    + left. split; [done|]. exists c. split; [|done].
      by eapply managed_by_elem.
    + right. done.
Qed.

(** The tokenizer and the namelists being taken to raise [BFException]
    only, [from_fds] raises three exceptions and no other: its aggregate
    error; the [ValueError] of a class bound to no type of the engine, which
    the registry then holds; the [KeyError] of the class ["ON_free"], which
    the registry then lacks.  The lookups of the text store never raise. *)
Theorem from_fds_raises_only (value : string) (w w' : World) (e : exn) :
  Scene_from_fds host registry value w = Raised e w' →
  e = aggregate_error
  ∨ (e = ValueError "BFDS: BFScene.from_fds: Unrecognized namelist type!"
     ∧ ∃ c, c ∈ registry ∧ cls_bpy_type c = TOther)
  ∨ (e = KeyError "ON_free" ∧ registry_get registry "ON_free" = None).
Proof.
  destruct (import_loop host registry value w) as [st w1|e1 w1] eqn:Hloop.
  - destruct (from_fds_after_loop host registry value w st w1 Hloop)
      as (w2 & -> & _).
    destruct (errors st); [|done]. intros [= <- _]. by left.
  - rewrite (from_fds_fatal host registry value w e1 w1 Hloop).
    intros [= <- _]. right.
    rewrite import_loop_tokens in Hloop.
    by apply import_tokens_raises in Hloop.
Qed.

(** A configuration error on a token ends the import at once: when the
    tokens before it are not managed, [from_fds] raises with the world as
    it found it, so that nothing is written to the free text and the
    original texts of those tokens are dropped. *)
Theorem from_fds_configuration_error_saves_nothing (value : string)
    (pre post : list Token) (token : Token) (w : World) :
  tokens_in_order host value = pre ++ token :: post →
  Forall (unmanaged registry) pre →
  (∀ c, managed_by registry token c → cls_bpy_type c = TOther →
     Scene_from_fds host registry value w =
       Raised
         (ValueError "BFDS: BFScene.from_fds: Unrecognized namelist type!") w)
  ∧ (registry_get_by_fds_label registry (fds_label token) = None →
     has_geometry (fds_params token) = true →
     registry_get registry "ON_free" = None →
     Scene_from_fds host registry value w = Raised (KeyError "ON_free") w).
Proof.
  intros Hord Hpre.
  assert (∀ e, import_token host registry
                 {| errors := errors (initial_locals host value);
                    free_texts := free_texts (initial_locals host value)
                                  ++ (fds_original <$> pre) |} token w
               = Raised e w →
               Scene_from_fds host registry value w = Raised e w) as Hstep.
  { intros e He. apply from_fds_fatal.
    rewrite import_loop_tokens, Hord, import_tokens_app.
    rewrite import_tokens_unmanaged_only by done.
    simpl. unfold_M. by rewrite He. }
  split.
  - intros c Hm Hty. apply Hstep.
    apply (import_token_fatal host registry _ token w c); [done|].
    unfold Scene_get_imported_element. by rewrite Hty.
  - intros Hl Hg Hno. apply Hstep.
    unfold import_token, Scene_get_imported_bf_namelist_cls, registry_getitem.
    unfold_M. by rewrite Hl, Hg, Hno.
Qed.

(** A label that has a class in the registry gets that class whatever the
    parameters are; the call never touches the world; and the class it
    returns is a class of the registry, that of the label or ["ON_free"]. *)
Theorem get_imported_bf_namelist_cls_in_registry (fds_label : string)
    (fds_params : gmap string string) (w : World) :
  (∀ c, registry_get_by_fds_label registry fds_label = Some c →
     Scene_get_imported_bf_namelist_cls registry fds_label fds_params w
       = Returned (Some c) w)
  ∧ outcome_world
      (Scene_get_imported_bf_namelist_cls registry fds_label fds_params w) = w
  ∧ (∀ c w',
       Scene_get_imported_bf_namelist_cls registry fds_label fds_params w
         = Returned (Some c) w' →
       c ∈ registry
       ∧ (cls_fds_label c = Some fds_label
          ∨ (cls_name c = "ON_free"
             ∧ registry_get_by_fds_label registry fds_label = None
             ∧ has_geometry fds_params = true))).
Proof.
  unfold Scene_get_imported_bf_namelist_cls, registry_getitem. unfold_M.
  split; [by intros c ->|].
  destruct (registry_get_by_fds_label registry fds_label) as [c0|] eqn:Hl.
  - split; [done|]. intros c w' [= <- _].
    apply registry_get_by_fds_label_elem in Hl as [? ?]. auto.
  - destruct (has_geometry fds_params); [|done].
    destruct (registry_get registry "ON_free") as [c0|] eqn:Hfree; [|done].
    split; [done|]. intros c w' [= <- _].
    apply registry_get_name in Hfree as [? ?]. auto.
Qed.

(** After an import that met no configuration error the scene names a text
    of the store: the export of the free text does not raise, nor does the
    export of the scene without children; and the text that the import
    wrote, when it and its name are not empty, is a body of the free-text
    block that is exported. *)
Theorem export_after_import (value : string) (w : World) :
  registry_well_formed registry →
  ∃ w2 content block,
    outcome_world (Scene_from_fds host registry value w) = w2
    ∧ free_text_resource w2 = Some content
    ∧ Scene_free_text_to_fds w2 = Returned block w2
    ∧ (sc_bf_head_free_text (scene w2) ≠ "" → content ≠ "" →
       content ∈ block)
    ∧ ∀ fuel, ∃ text,
        Scene_to_fds host registry fuel false w2 = Some (Returned text w2).
Proof.
  intros Hwf.
  destruct (import_loop_returns host registry value w Hwf) as (st & w1 & Hl).
  destruct (from_fds_after_loop host registry value w st w1 Hl)
    as (w2 & Hfrom & Hres & _).
  exists w2, (merged_existing_last (free_texts st) (existing_free_text w1)).
  assert (outcome_world (Scene_from_fds host registry value w) = w2) as Hw2.
  { rewrite Hfrom. by destruct (errors st). }
  pose proof (Scene_free_text_to_fds_cases w2) as Hcases. cbv zeta in Hcases.
  unfold free_text_resource in Hres. rewrite Hres in Hcases.
  set (content := merged_existing_last (free_texts st)
                    (existing_free_text w1)) in *.
  destruct (decide (sc_bf_head_free_text (scene w2) = "")) as [Hn|Hn].
  { rewrite bool_decide_eq_true_2 in Hcases by done.
    exists []. split; [done|]. split; [done|]. split; [done|].
    split; [done|]. intros fuel. unfold Scene_to_fds. rewrite Hcases. eauto. }
  rewrite bool_decide_eq_false_2 in Hcases by done.
  destruct (decide (content = "")) as [Hc|Hc].
  { rewrite bool_decide_eq_true_2 in Hcases by done.
    exists []. split; [done|]. split; [done|]. split; [done|].
    split; [done|]. intros fuel. unfold Scene_to_fds. rewrite Hcases. eauto. }
  rewrite bool_decide_eq_false_2 in Hcases by done.
  eexists. split; [done|]. split; [done|]. split; [exact Hcases|].
  split.
  - intros _ _. apply elem_of_app. left.
    apply elem_of_cons. right. by apply list_elem_of_singleton.
  - intros fuel. unfold Scene_to_fds. rewrite Hcases. eauto.
Qed.

(** An import that collects no fragment, into a scene that names a text of
    the store, writes to the text what the text holds: the world is left as
    the loop over the tokens left it. *)
Theorem from_fds_nothing_collected (value : string) (w w1 : World)
    (st : Locals) :
  import_loop host registry value w = Returned st w1 →
  free_texts st = [] →
  sc_bf_head_free_text (scene w1) ≠ "" →
  is_Some (texts w1 !! sc_bf_head_free_text (scene w1)) →
  Scene_from_fds host registry value w =
    (if errors st then Raised aggregate_error w1 else Returned tt w1).
Proof.
  intros Hloop Hnone Hname [old Hold].
  unfold Scene_from_fds. unfold_M. rewrite Hloop, Hnone.
  unfold Scene_save_imported_unmanaged_tokens, set_free_text_file,
    texts_as_string, texts_from_string. unfold_M.
  rewrite bool_decide_eq_true_2 by done.
  rewrite bool_decide_eq_true_2 by eauto. simpl. rewrite !Hold.
  assert (String.concat NL
            (if bool_decide (old ≠ "") then [old] else []) = old)
    as ->.
  { destruct (decide (old = "")) as [->|Hne]; [done|].
    by rewrite bool_decide_eq_true_2. }
  assert (with_texts <[sc_bf_head_free_text (scene w1):=old]> w1 = w1) as ->.
  { unfold with_texts. rewrite insert_id by done. by destruct w1. }
  by destruct (errors st).
Qed.
End ImportMore.

(** ** Printing *)

(** The three [__str__] tell the names apart and the kinds apart: two
    objects (materials, scenes) print the same only if they have the same
    name, and an object, a material and a scene never print the same. *)
Theorem str_tells_apart (a b : Object) (m n : Material) (s t : Scene) :
  (Object_str a = Object_str b ↔ ob_name a = ob_name b)
  ∧ (Material_str m = Material_str n ↔ ma_name m = ma_name n)
  ∧ (Scene_str s = Scene_str t ↔ sc_name s = sc_name t)
  ∧ Object_str a ≠ Material_str m
  ∧ Object_str a ≠ Scene_str s
  ∧ Material_str m ≠ Scene_str s.
Proof.
  unfold Object_str, Material_str, Scene_str.
  repeat split; try (by intros ->); try (by intros ?%(inj _));
    intros H; vm_compute in H; discriminate.
Qed.

(** ** Temporary objects *)

Lemma filter_ext_in {A} (P Q : A → Prop) `{∀ x, Decision (P x)}
    `{∀ x, Decision (Q x)} (l : list A) :
  (∀ x, x ∈ l → P x ↔ Q x) → filter P l = filter Q l.
Proof.
  induction l as [|x l IH]; intros HPQ; [done|].
  rewrite !filter_cons.
  assert (P x ↔ Q x) as Hx by (apply HPQ; by left).
  rewrite IH by (intros y Hy; apply HPQ; by right).
  destruct (decide (P x)), (decide (Q x)); tauto.
Qed.

Lemma filter_all {A} (P : A → Prop) `{∀ x, Decision (P x)} (l : list A) :
  (∀ x, P x) → filter P l = l.
Proof.
  intros HP. induction l as [|x l IH]; [done|].
  by rewrite filter_cons, decide_True, IH.
Qed.

Section TmpFacts.
Context {Matrix : Type}.
Implicit Types (d : BlData Matrix) (o x : BlObject Matrix).

Lemma bl_lookup_Some id d o :
  bl_lookup id d = Some o → o ∈ bl_objects d ∧ bl_id o = id.
Proof.
  unfold bl_lookup. intros [Hin Hid]%find_some.
  split; [by apply list_elem_of_In|]. by apply bool_decide_eq_true in Hid.
Qed.

Lemma bl_lookup_is_Some id (l : list (BlObject Matrix)) o active :
  o ∈ l → bl_id o = id →
  is_Some (bl_lookup id {| bl_objects := l; bl_active := active |}).
Proof.
  intros Hin Hid. unfold bl_lookup. simpl.
  destruct (find _ l) as [o'|] eqn:Hfind; [by eexists|].
  apply list_elem_of_In in Hin.
  pose proof (find_none _ _ Hfind o Hin) as Hno. simpl in Hno.
  by rewrite bool_decide_eq_true_2 in Hno.
Qed.


Lemma fold_remove_tmp (cs : list (BlObject Matrix)) d :
  foldl (λ d child,
           if ob_bf_is_tmp (bl_ob child) then bl_remove (bl_id child) d
           else d) d cs
  = {| bl_objects :=
         filter (λ x, bl_id x ∉
                      (bl_id <$> filter (λ c, ob_bf_is_tmp (bl_ob c) = true) cs))
           (bl_objects d);
       bl_active := bl_active d |}.
Proof.
  revert d. induction cs as [|c cs IH]; intros d; simpl.
  { destruct d as [l a]. simpl. f_equal.
    symmetry. apply filter_all. intros x. apply not_elem_of_nil. }
  rewrite IH. rewrite filter_cons.
  destruct (ob_bf_is_tmp (bl_ob c)) eqn:Htmp.
  - rewrite decide_True by done. simpl. f_equal.
    rewrite list_filter_filter. apply list_filter_iff. intros x.
    rewrite ?fmap_cons, not_elem_of_cons. tauto.
  - by rewrite decide_False by done.
Qed.

Lemma fold_unhide_tmp (cs : list (BlObject Matrix)) d :
  foldl (λ d child,
           if ob_bf_is_tmp (bl_ob child)
           then bl_update (bl_id child) (bl_set_hide false) d else d) d cs
  = {| bl_objects :=
         (λ x, if bool_decide
                    (bl_id x ∈
                     (bl_id <$> filter (λ c, ob_bf_is_tmp (bl_ob c) = true) cs))
               then bl_set_hide false x else x) <$> bl_objects d;
       bl_active := bl_active d |}.
Proof.
  revert d. induction cs as [|c cs IH]; intros d; simpl.
  { destruct d as [l a]. simpl. f_equal.
    rewrite <-(list_fmap_id l) at 1. apply list_fmap_ext.
    by intros i x _. }
  rewrite IH. rewrite filter_cons.
  destruct (ob_bf_is_tmp (bl_ob c)) eqn:Htmp.
  - rewrite decide_True by done. unfold bl_update. simpl. f_equal.
    rewrite <-list_fmap_compose. apply list_fmap_ext. intros i x _. simpl.
    rewrite ?fmap_cons.
    destruct (decide (bl_id x = bl_id c)) as [Hx|Hx].
    + rewrite (bool_decide_eq_true_2 (bl_id x = bl_id c)) by done.
      rewrite (bool_decide_eq_true_2 (_ ∈ _ :: _))
        by (apply elem_of_cons; by left).
      by destruct (bool_decide _).
    + rewrite (bool_decide_eq_false_2 (bl_id x = bl_id c)) by done.
      repeat case_bool_decide; try done; exfalso;
        match goal with
        | H : ¬ _ ∈ _ :: _ |- _ => apply H, elem_of_cons; by right
        | H : _ ∈ _ :: _ |- _ => apply elem_of_cons in H as [?|?]; done
        end.
  - by rewrite decide_False by done.
Qed.
Lemma tmp_child_ids self d x :
  NoDup (bl_id <$> bl_objects d) → x ∈ bl_objects d →
  bl_id x ∈ (bl_id <$> filter (λ c, ob_bf_is_tmp (bl_ob c) = true)
                         (bl_children self d))
  ↔ tmp_child_of self x.
Proof.
  intros Hnd Hx. unfold bl_children, tmp_child_of. split.
  - intros (c & Hid & Hc)%list_elem_of_fmap.
    apply list_elem_of_filter in Hc as [Htmp Hc].
    apply list_elem_of_filter in Hc as [Hpar Hc].
    assert (x = c) as -> by (by apply (key_inj_on bl_id (bl_objects d))).
    done.
  - intros [Hpar Htmp]. apply list_elem_of_fmap_2.
    apply list_elem_of_filter. split; [done|].
    by apply list_elem_of_filter.
Qed.


Lemma Object_remove_tmp_obs_result self d s :
  NoDup (bl_id <$> bl_objects d) →
  bl_lookup self d = Some s →
  ¬ tmp_child_of self s →
  Object_remove_tmp_obs self d =
    Some {| bl_objects :=
              (λ x, if bool_decide (bl_id x = self)
                    then bl_set_hide false (bl_set_bf_has_tmp false x)
                    else x)
              <$> filter (λ x, ¬ tmp_child_of self x) (bl_objects d);
            bl_active := bl_active d |}.
Proof.
  intros Hnd Hs Hown. unfold Object_remove_tmp_obs.
  rewrite fold_remove_tmp.
  rewrite (filter_ext_in _ (λ x, ¬ tmp_child_of self x));
    [|by intros x Hx; rewrite (tmp_child_ids self d x Hnd Hx)].
  apply bl_lookup_Some in Hs as [Hin Hid].
  destruct (bl_lookup_is_Some self
              (filter (λ x, ¬ tmp_child_of self x) (bl_objects d)) s
              (bl_active d)) as [s' ->]; [by apply list_elem_of_filter|done|].
  simpl. unfold bl_update. simpl. do 2 f_equal.
  rewrite <-list_fmap_compose. apply list_fmap_ext. intros i x _.
  unfold bl_id. simpl.
  destruct (bool_decide (ob_id (bl_ob x) = self)) eqn:E; simpl;
    by rewrite ?E.
Qed.

(** [remove_tmp_obs] removes the temporary children of [self] and no other
    object: the objects left are those that are not temporary children of
    [self], in their order and as they were, but for [self], which has no
    temporary object any more and is shown. *)
Theorem Object_remove_tmp_obs_removes_tmp_children self d s :
  NoDup (bl_id <$> bl_objects d) →
  bl_lookup self d = Some s →
  ¬ tmp_child_of self s →
  ∃ d',
    Object_remove_tmp_obs self d = Some d'
    ∧ bl_objects d' =
        (λ x, if bool_decide (bl_id x = self)
              then bl_set_hide false (bl_set_bf_has_tmp false x) else x)
        <$> filter (λ x, ¬ tmp_child_of self x) (bl_objects d)
    ∧ bl_active d' = bl_active d
    ∧ Forall (λ x, ¬ tmp_child_of self x) (bl_objects d')
    ∧ (∀ s', bl_lookup self d' = Some s' →
         bl_bf_has_tmp s' = false ∧ bl_hide s' = false).
Proof.
  intros Hnd Hs Hown. eexists.
  split; [by apply (Object_remove_tmp_obs_result self d s)|].
  split; [done|]. split; [done|]. simpl. split.
  - apply Forall_forall. intros y (x & -> & Hx)%list_elem_of_fmap.
    apply list_elem_of_filter in Hx as [Hno _].
    by destruct (bool_decide (bl_id x = self)).
  - intros s' Hs'. apply bl_lookup_Some in Hs' as [Hin Hid]. simpl in Hin.
    apply list_elem_of_fmap in Hin as (x & -> & Hx).
    destruct (bool_decide (bl_id x = self)) eqn:E; [done|].
    by apply bool_decide_eq_false in E.
Qed.

(** [show_tmp_obs] adds and removes no object and writes nothing that the
    export reads: it shows the temporary children of [self], then selects
    and hides [self], which becomes the active object of the scene. *)
Theorem Object_show_tmp_obs_shows_tmp_children self d :
  NoDup (bl_id <$> bl_objects d) →
  bl_objects (Object_show_tmp_obs self d) =
    (λ x, let x := if decide (tmp_child_of self x)
                   then bl_set_hide false x else x in
          if bool_decide (bl_id x = self)
          then bl_set_hide true (bl_set_select true x) else x)
    <$> bl_objects d
  ∧ bl_active (Object_show_tmp_obs self d) = Some self
  ∧ bl_ob <$> bl_objects (Object_show_tmp_obs self d)
      = bl_ob <$> bl_objects d.
Proof.
  intros Hnd. unfold Object_show_tmp_obs. rewrite fold_unhide_tmp.
  unfold bl_update, bl_set_active. simpl.
  split; [|split; [done|]].
  - rewrite <-!list_fmap_compose. apply list_fmap_ext. intros i x Hi.
    assert (x ∈ bl_objects d) as Hx by (by eapply list_elem_of_lookup_2).
    pose proof (tmp_child_ids self d x Hnd Hx) as Hiff.
    cbv zeta. simpl.
    destruct (decide (tmp_child_of self x)) as [Ht|Ht].
    + rewrite (bool_decide_eq_true_2 (_ ∈ _)) by (by apply Hiff).
      unfold bl_id. simpl.
      destruct (bool_decide (ob_id (bl_ob x) = self)) eqn:E; simpl;
        by rewrite ?E.
    + rewrite (bool_decide_eq_false_2 (_ ∈ _)) by (by rewrite Hiff).
      unfold bl_id. simpl.
      destruct (bool_decide (ob_id (bl_ob x) = self)) eqn:E; simpl;
        by rewrite ?E.
  - rewrite <-!list_fmap_compose. apply list_fmap_ext. intros i x _. simpl.
    repeat case_bool_decide; done.
Qed.




End TmpFacts.

(** ** The own export of an object, type by type *)

(** The comment line of an [EMPTY] is written whenever the object is
    enabled, whatever its class and whether it is temporary or not; an
    object that is neither a [MESH] nor an [EMPTY] writes nothing; and the
    own export of any object is at most one body, which is not empty. *)
Theorem Object_myself_to_fds_by_type (registry : list BFNamelist)
    (self : Object) :
  (ob_type self = "EMPTY" →
   Object_myself_to_fds registry self =
     if ob_bf_export self
     then ["! -- " +:+ ob_name self +:+ ": " +:+ ob_bf_fyi self +:+ NL]
     else [])
  ∧ (ob_type self ≠ "MESH" → ob_type self ≠ "EMPTY" →
     Object_myself_to_fds registry self = [])
  ∧ length (Object_myself_to_fds registry self) ≤ 1
  ∧ Forall (λ body, body ≠ "") (Object_myself_to_fds registry self).
Proof.
  unfold Object_myself_to_fds. split; [|split; [|split]].
  - intros ->. by destruct (ob_bf_export self).
  - intros Hm He. rewrite !bool_decide_eq_false_2 by done.
    by destruct (ob_bf_export self).
  - destruct (ob_bf_export self); [|simpl; lia].
    destruct (bool_decide (ob_type self = "MESH")).
    + destruct (Object_bf_namelist registry self) as [c|]; [|simpl; lia].
      unfold appended. destruct (nl_to_fds c _) as [body|]; [|simpl; lia].
      destruct (bool_decide (body = "")); simpl; lia.
    + destruct (bool_decide (ob_type self = "EMPTY")); simpl; lia.
  - destruct (ob_bf_export self); [|constructor].
    destruct (bool_decide (ob_type self = "MESH")).
    + destruct (Object_bf_namelist registry self) as [c|]; [|constructor].
      unfold appended. destruct (nl_to_fds c _) as [body|]; [|constructor].
      destruct (decide (body = "")) as [->|Hne]; [constructor|].
      rewrite bool_decide_eq_false_2 by done. by repeat constructor.
    + destruct (bool_decide (ob_type self = "EMPTY")); [|constructor].
      repeat constructor. intros H. vm_compute in H. discriminate.
Qed.

(** ** The further properties on the small cases *)

Lemma Sample_world_ranked : hierarchy_ranked Sample.rank (objects Sample.world).
Proof. exact Sample_hierarchy_ranked. Qed.

Lemma SampleTmp_ids_distinct :
  NoDup (bl_id <$> bl_objects SampleTmp.data).
Proof. apply (bool_decide_unpack _). by vm_compute. Qed.

(** The door of the case has no child. *)
Lemma Object_to_fds_leaf_witness :
  Forall (λ ob, ob_parent ob ≠ Some (ob_id Sample.door)) Sample.objs
  ∧ Object_to_fds Sample.registry 1 Sample.objs Sample.door true
      = Object_to_fds Sample.registry 1 Sample.objs Sample.door false.
Proof.
  assert (Forall (λ ob, ob_parent ob ≠ Some (ob_id Sample.door)) Sample.objs)
    as Hleaf by (apply (bool_decide_unpack _); by vm_compute).
  split; [exact Hleaf|].
  exact (proj1 (Object_to_fds_leaf Sample.registry 0 Sample.objs Sample.door
                  Hleaf)).
Defined.

(** The room of the case, two levels above its deepest descendant: the
    export returns from three nested calls on, and not within two. *)
Lemma Object_to_fds_call_depth_witness :
  hierarchy_ranked Sample.rank Sample.objs
  ∧ Sample.rank (ob_id Sample.room) < 3
  ∧ (∃ body, ∀ fuel', 3 ≤ fuel' →
       Object_to_fds Sample.registry fuel' Sample.objs Sample.room true
         = Some body)
  ∧ descends Sample.objs (Some (ob_id Sample.room))
      [Sample.wall; Sample.ghost]
  ∧ Object_to_fds Sample.registry 2 Sample.objs Sample.room true = None.
Proof.
  assert (descends Sample.objs (Some (ob_id Sample.room))
            [Sample.wall; Sample.ghost]) as Hch
    by (apply (bool_decide_unpack _); by vm_compute).
  destruct (Object_to_fds_call_depth Sample.registry Sample.rank Sample.objs
              Sample.room) as [Hret Hnot].
  split; [exact Sample_hierarchy_ranked|]. split; [vm_compute; lia|].
  split; [|split; [exact Hch|]].
  - apply (Hret Sample_hierarchy_ranked 3 true). vm_compute. lia.
  - apply (Hnot [Sample.wall; Sample.ghost] 2 Hch). simpl. lia.
Defined.

(** An object that is its own parent. *)
Lemma Object_to_fds_own_parent_witness :
  SampleTmp.knot ∈ [SampleTmp.knot]
  ∧ ob_parent SampleTmp.knot = Some (ob_id SampleTmp.knot)
  ∧ ∀ fuel,
      Object_to_fds Sample.registry fuel [SampleTmp.knot] SampleTmp.knot true
        = None.
Proof.
  assert (SampleTmp.knot ∈ [SampleTmp.knot]) as Hin
    by (apply list_elem_of_singleton; reflexivity).
  split; [exact Hin|]. split; [reflexivity|].
  apply (Object_to_fds_own_parent_never_returns Sample.registry
           [SampleTmp.knot] SampleTmp.knot Hin).
  reflexivity.
Defined.

(** The case with its objects and materials listed the other way round. *)
Lemma Scene_to_fds_order_independent_witness :
  objects Sample.world ≡ₚ objects SampleTmp.world_reversed
  ∧ materials Sample.world ≡ₚ materials SampleTmp.world_reversed
  ∧ NoDup (ob_name <$> objects Sample.world)
  ∧ NoDup (ma_name <$> materials Sample.world)
  ∧ outcome_result <$>
      Scene_to_fds Sample.host Sample.registry 4 true SampleTmp.world_reversed
    = outcome_result <$>
        Scene_to_fds Sample.host Sample.registry 4 true Sample.world.
Proof.
  assert (objects Sample.world ≡ₚ objects SampleTmp.world_reversed) as Hob
    by (symmetry; apply reverse_Permutation).
  assert (materials Sample.world ≡ₚ materials SampleTmp.world_reversed)
    as Hma by (symmetry; apply reverse_Permutation).
  assert (NoDup (ma_name <$> materials Sample.world)) as Hnma
    by (apply (bool_decide_unpack _); by vm_compute).
  split; [exact Hob|]. split; [exact Hma|].
  split; [exact Sample_names_distinct|]. split; [exact Hnma|].
  apply (Scene_to_fds_order_independent Sample.host Sample.registry 4 true
           Sample.world SampleTmp.world_reversed);
    [reflexivity|reflexivity|exact Hob|exact Hma|exact Sample_names_distinct
    |exact Hnma].
Defined.

(** The full case of the small scene, whose objects hang three deep: the
    export ends from four nested calls on, and not within three. *)
Lemma Scene_to_fds_call_depth_witness :
  hierarchy_ranked Sample.rank (objects Sample.world)
  ∧ call_depth Sample.rank (objects Sample.world) None < 4
  ∧ (∃ o, ∀ fuel', 4 ≤ fuel' →
       Scene_to_fds Sample.host Sample.registry fuel' true Sample.world
         = Some o)
  ∧ ¬ free_text_dangling Sample.world
  ∧ descends (objects Sample.world) None
      [Sample.room; Sample.wall; Sample.ghost]
  ∧ Scene_to_fds Sample.host Sample.registry 3 true Sample.world = None.
Proof.
  assert (descends (objects Sample.world) None
            [Sample.room; Sample.wall; Sample.ghost]) as Hch
    by (apply (bool_decide_unpack _); by vm_compute).
  assert (¬ free_text_dangling Sample.world) as Hok.
  { intros [_ Hno]. vm_compute in Hno. discriminate Hno. }
  destruct (Scene_to_fds_call_depth Sample.host Sample.registry Sample.rank
              Sample.world) as [Hret Hnot].
  split; [exact Sample_world_ranked|]. split; [vm_compute; lia|].
  split; [|split; [exact Hok|split; [exact Hch|]]].
  - destruct (Hret Sample_world_ranked 4 true ltac:(vm_compute; lia))
      as (o & Ho & _).
    exists o. exact Ho.
  - apply (Hnot [Sample.room; Sample.wall; Sample.ghost] 3 Hok Hch).
    simpl. lia.
Defined.

(** The text ["new"], whose one token is not managed. *)
Lemma from_fds_unmanaged_only_witness :
  tokenize Sample.host "new" = inl [Sample.tk_misc]
  ∧ Forall (unmanaged Sample.registry) [Sample.tk_misc]
  ∧ ∃ w2,
      Scene_from_fds Sample.host Sample.registry "new" Sample.world
        = Returned tt w2
      ∧ objects w2 = objects Sample.world
      ∧ free_text_resource w2 = Some ("&MISC TMPA=20. /" +:+ NL +:+ "OLD").
Proof.
  assert (Forall (unmanaged Sample.registry) [Sample.tk_misc]) as Hall.
  { constructor; [|constructor]. split; vm_compute; reflexivity. }
  split; [reflexivity|]. split; [exact Hall|].
  destruct (from_fds_unmanaged_only Sample.host Sample.registry "new"
              [Sample.tk_misc] Sample.world eq_refl Hall)
    as (w2 & Hfrom & Hob & _ & Hres).
  exists w2. split; [exact Hfrom|]. split; [exact Hob|].
  rewrite Hres. vm_compute. reflexivity.
Defined.

(** A text that the tokenizer refuses. *)
Lemma from_fds_parse_error_witness :
  tokenize Sample.host "garbage" = inr ["garbage"]
  ∧ ∃ w2,
      Scene_from_fds Sample.host Sample.registry "garbage" Sample.world
        = Raised aggregate_error w2
      ∧ objects w2 = objects Sample.world
      ∧ free_text_resource w2 = Some ("garbage" +:+ NL +:+ "OLD").
Proof.
  split; [reflexivity|].
  destruct (from_fds_parse_error Sample.host Sample.registry "garbage"
              ["garbage"] Sample.world eq_refl)
    as (w2 & Hfrom & Hob & _ & Hres).
  exists w2. split; [exact Hfrom|]. split; [exact Hob|].
  rewrite Hres. vm_compute. reflexivity.
Defined.

(** The text ["bad obst"] raises, and what it raises is the aggregate
    error. *)
Lemma from_fds_raises_only_witness :
  Scene_from_fds Sample.host Sample.registry "bad obst" Sample.world
    = Raised aggregate_error
        (outcome_world
           (Scene_from_fds Sample.host Sample.registry "bad obst"
              Sample.world))
  ∧ (aggregate_error = aggregate_error
     ∨ (aggregate_error
          = ValueError "BFDS: BFScene.from_fds: Unrecognized namelist type!"
        ∧ ∃ c, c ∈ Sample.registry ∧ cls_bpy_type c = TOther)
     ∨ (aggregate_error = KeyError "ON_free"
        ∧ registry_get Sample.registry "ON_free" = None)).
Proof.
  assert (Scene_from_fds Sample.host Sample.registry "bad obst" Sample.world
          = Raised aggregate_error
              (outcome_world
                 (Scene_from_fds Sample.host Sample.registry "bad obst"
                    Sample.world))) as Hraise
    by (vm_compute; reflexivity).
  split; [exact Hraise|].
  exact (from_fds_raises_only Sample.host Sample.registry "bad obst"
           Sample.world _ aggregate_error Hraise).
Defined.

(** The text ["lamp"] with the class bound to no type of the engine: the
    token [MISC] before it is not managed, and nothing of it is kept. *)
Lemma from_fds_configuration_error_witness :
  tokens_in_order Sample.host "lamp" = [Sample.tk_misc] ++ Sample.tk_lamp :: []
  ∧ Forall (unmanaged Sample.ill_registry) [Sample.tk_misc]
  ∧ managed_by Sample.ill_registry Sample.tk_lamp Sample.XN_LAMP
  ∧ Scene_from_fds Sample.host Sample.ill_registry "lamp" Sample.world =
      Raised
        (ValueError "BFDS: BFScene.from_fds: Unrecognized namelist type!")
        Sample.world.
Proof.
  assert (Forall (unmanaged Sample.ill_registry) [Sample.tk_misc]) as Hall.
  { constructor; [|constructor]. split; vm_compute; reflexivity. }
  assert (managed_by Sample.ill_registry Sample.tk_lamp Sample.XN_LAMP)
    as Hm by (left; reflexivity).
  split; [reflexivity|]. split; [exact Hall|]. split; [exact Hm|].
  exact (proj1 (from_fds_configuration_error_saves_nothing Sample.host
                  Sample.ill_registry "lamp" [Sample.tk_misc] []
                  Sample.tk_lamp Sample.world eq_refl Hall)
           Sample.XN_LAMP Hm eq_refl).
Defined.

(** After the import of ["new"] into a scene that names a text which is
    not in the store, the export of the scene does not raise. *)
Lemma export_after_import_witness :
  registry_well_formed Sample.registry
  ∧ free_text_dangling Sample.dangling_world
  ∧ ∃ w2 content block,
      outcome_world
        (Scene_from_fds Sample.host Sample.registry "new"
           Sample.dangling_world) = w2
      ∧ free_text_resource w2 = Some content
      ∧ Scene_free_text_to_fds w2 = Returned block w2
      ∧ (sc_bf_head_free_text (scene w2) ≠ "" → content ≠ "" →
         content ∈ block)
      ∧ ∀ fuel, ∃ text,
          Scene_to_fds Sample.host Sample.registry fuel false w2
            = Some (Returned text w2).
Proof.
  split; [exact Sample_registry_well_formed|].
  split; [split; [by intros [=]|reflexivity]|].
  exact (export_after_import Sample.host Sample.registry "new"
           Sample.dangling_world Sample_registry_well_formed).
Defined.

(** The empty text imported into the scene whose free text holds
    ["OLD"]. *)
Lemma from_fds_nothing_collected_witness :
  import_loop Sample.host Sample.registry "" Sample.world
    = Returned {| errors := false; free_texts := [] |} Sample.world
  ∧ sc_bf_head_free_text (scene Sample.world) ≠ ""
  ∧ is_Some (texts Sample.world !! sc_bf_head_free_text (scene Sample.world))
  ∧ Scene_from_fds Sample.host Sample.registry "" Sample.world
      = Returned tt Sample.world.
Proof.
  assert (sc_bf_head_free_text (scene Sample.world) ≠ "") as Hname
    by (by intros [=]).
  assert (is_Some (texts Sample.world
                     !! sc_bf_head_free_text (scene Sample.world))) as Hsome
    by (by eexists).
  split; [reflexivity|]. split; [exact Hname|]. split; [exact Hsome|].
  exact (from_fds_nothing_collected Sample.host Sample.registry ""
           Sample.world Sample.world
           {| errors := false; free_texts := [] |} eq_refl eq_refl
           Hname Hsome).
Defined.

(** The hall of the case loses its temporary object and keeps its door. *)
Lemma Object_remove_tmp_obs_witness :
  NoDup (bl_id <$> bl_objects SampleTmp.data)
  ∧ bl_lookup 6 SampleTmp.data = Some SampleTmp.hall
  ∧ ¬ tmp_child_of 6 SampleTmp.hall
  ∧ ∃ d',
      Object_remove_tmp_obs 6 SampleTmp.data = Some d'
      ∧ bl_id <$> bl_objects d' = [1; 2; 6; 8; 9]
      ∧ Forall (λ x, ¬ tmp_child_of 6 x) (bl_objects d').
Proof.
  assert (¬ tmp_child_of 6 SampleTmp.hall) as Hown by (by intros [[=] _]).
  split; [exact SampleTmp_ids_distinct|]. split; [reflexivity|].
  split; [exact Hown|].
  destruct (Object_remove_tmp_obs_removes_tmp_children 6 SampleTmp.data
              SampleTmp.hall SampleTmp_ids_distinct eq_refl Hown)
    as (d' & Hrm & Hobjs & _ & Hnone & _).
  exists d'. split; [exact Hrm|]. split; [|exact Hnone].
  rewrite Hobjs. vm_compute. reflexivity.
Defined.

(** The temporary object of the hall is shown and the hall is hidden. *)
Lemma Object_show_tmp_obs_witness :
  NoDup (bl_id <$> bl_objects SampleTmp.data)
  ∧ bl_hide <$> bl_objects (Object_show_tmp_obs 6 SampleTmp.data)
      = [false; false; true; false; false; false]
  ∧ bl_active (Object_show_tmp_obs 6 SampleTmp.data) = Some 6
  ∧ bl_ob <$> bl_objects (Object_show_tmp_obs 6 SampleTmp.data)
      = bl_ob <$> bl_objects SampleTmp.data.
Proof.
  split; [exact SampleTmp_ids_distinct|].
  destruct (Object_show_tmp_obs_shows_tmp_children 6 SampleTmp.data
              SampleTmp_ids_distinct) as (Hobjs & Hact & Hob).
  split; [rewrite Hobjs; vm_compute; reflexivity|].
  split; [exact Hact|exact Hob].
Defined.



(** ** Import: the entities that are made *)

Section ImportCount.
Context (host : Host) (registry : list BFNamelist).

Lemma token_bpy_type_managed token c :
  managed_by registry token c →
  token_bpy_type registry token = Some (cls_bpy_type c).
Proof.
  unfold token_bpy_type. intros [-> | (-> & -> & ->)]; done.
Qed.

Lemma token_bpy_type_unmanaged token :
  unmanaged registry token → token_bpy_type registry token = None.
Proof. unfold token_bpy_type. by intros [-> ->]. Qed.

Lemma import_token_counts st token w st' w' :
  codecs_keep_collections registry →
  import_token host registry st token w = Returned st' w' →
  length (objects w') =
    length (objects w)
    + length (filter (λ t, token_bpy_type registry t = Some TObject) [token])
  ∧ length (materials w') =
      length (materials w)
      + length (filter (λ t, token_bpy_type registry t = Some TMaterial)
                  [token]).
Proof.
  intros Hkeep.
  destruct (token_cases registry token) as [[c Hm]|[Hun|(Hl & Hg & Hno)]].
  - pose proof (token_bpy_type_managed token c Hm) as Hty.
    pose proof (managed_by_elem registry token c Hm) as Hin.
    destruct (Scene_get_imported_element host registry c (fds_label token) w)
      as [element w2|e w2] eqn:Hel;
      [|by rewrite (import_token_fatal host registry st token w c e w2)].
    destruct (nl_from_fds c element (fds_params token) w2) as [w3 err] eqn:Hnl.
    rewrite (import_token_managed host registry st token w c element w2 w3
               err) by done.
    intros [= _ <-].
    destruct (Hkeep c element (fds_params token) w2 Hin) as [Ho Hma].
    rewrite Hnl in Ho, Hma. simpl in Ho, Hma. rewrite Ho, Hma.
    rewrite !filter_cons, !filter_nil, Hty.
    destruct (cls_bpy_type c) eqn:Hc.
    + unfold Scene_get_imported_element in Hel. rewrite Hc in Hel.
      injection Hel as _ <-. simpl. lia.
    + rewrite get_imported_element_object in Hel by done.
      injection Hel as _ <-. simpl. rewrite length_app. simpl. lia.
    + rewrite get_imported_element_material in Hel by done.
      injection Hel as _ <-. simpl. rewrite length_app. simpl. lia.
    + unfold Scene_get_imported_element in Hel. by rewrite Hc in Hel.
  - rewrite import_token_unmanaged by done. intros [= _ <-].
    rewrite !filter_cons, !filter_nil, token_bpy_type_unmanaged by done.
    simpl. lia.
  - unfold import_token, Scene_get_imported_bf_namelist_cls, registry_getitem.
    unfold_M. by rewrite Hl, Hg, Hno.
Qed.

Lemma import_tokens_counts tokens st w st' w' :
  codecs_keep_collections registry →
  import_tokens host registry st tokens w = Returned st' w' →
  length (objects w') =
    length (objects w)
    + length (filter (λ t, token_bpy_type registry t = Some TObject) tokens)
  ∧ length (materials w') =
      length (materials w)
      + length (filter (λ t, token_bpy_type registry t = Some TMaterial)
                  tokens).
Proof.
  intros Hkeep. revert st w.
  induction tokens as [|token tokens IH]; intros st w; cbn [import_tokens].
  { unfold_M. intros [= _ <-]. rewrite !filter_nil. simpl. lia. }
  unfold_M.
  destruct (import_token host registry st token w) as [st1 w1|e w1] eqn:H1;
    [|done].
  intros H2. apply import_token_counts in H1 as [Ho1 Hm1]; [|done].
  apply IH in H2 as [Ho2 Hm2].
  rewrite !filter_cons in *. rewrite !filter_nil in *.
  destruct (decide (token_bpy_type registry token = Some TObject)),
    (decide (token_bpy_type registry token = Some TMaterial));
    simpl in *; lia.
Qed.

(** The [from_fds] of the namelists adding and removing no object and no
    material, an import that goes through its tokens makes one object for
    each token of an object class, one material for each token of a
    material class, and nothing for the others. *)
Theorem from_fds_one_entity_per_token (value : string)
    (tokens : list Token) (w w1 : World) (st : Locals) :
  codecs_keep_collections registry →
  tokenize host value = inl tokens →
  import_loop host registry value w = Returned st w1 →
  length (objects (outcome_world (Scene_from_fds host registry value w))) =
    length (objects w)
    + length (filter (λ t, token_bpy_type registry t = Some TObject) tokens)
  ∧ length (materials
              (outcome_world (Scene_from_fds host registry value w))) =
      length (materials w)
      + length (filter (λ t, token_bpy_type registry t = Some TMaterial)
                  tokens).
Proof.
  intros Hkeep Htok Hloop.
  destruct (from_fds_after_loop host registry value w st w1 Hloop)
    as (w2 & Hfrom & _ & Hob & Hma).
  assert (outcome_world (Scene_from_fds host registry value w) = w2) as ->.
  { rewrite Hfrom. by destruct (errors st). }
  rewrite Hob, Hma.
  rewrite import_loop_tokens in Hloop.
  apply import_tokens_counts in Hloop as [Ho Hm]; [|done].
  unfold tokens_in_order in Ho, Hm. rewrite Htok in Ho, Hm.
  unfold import_order in Ho, Hm. rewrite sort_by_perm in Ho, Hm.
  done.
Qed.
End ImportCount.

Lemma Sample_codecs_keep_collections : codecs_keep_collections Sample.registry.
Proof.
  intros c element params w Hin. unfold Sample.registry in Hin.
  repeat (apply elem_of_cons in Hin as [->|Hin]); simpl;
    try done; try (unfold Sample.needs_XB; by case_bool_decide).
  by apply elem_of_nil in Hin.
Qed.

(** The text ["mixed"]: two tokens of object classes, two of a material
    class, one that is not managed. *)
Lemma from_fds_one_entity_per_token_witness :
  codecs_keep_collections Sample.registry
  ∧ tokenize Sample.host "mixed"
      = inl [Sample.tk_obst; Sample.tk_surf; Sample.tk_misc; Sample.tk_devc;
             Sample.tk_surf2]
  ∧ length (objects
              (outcome_world
                 (Scene_from_fds Sample.host Sample.registry "mixed"
                    Sample.world)))
      = length (objects Sample.world) + 2
  ∧ length (materials
              (outcome_world
                 (Scene_from_fds Sample.host Sample.registry "mixed"
                    Sample.world)))
      = length (materials Sample.world) + 2.
Proof.
  split; [exact Sample_codecs_keep_collections|]. split; [reflexivity|].
  destruct (import_loop_returns Sample.host Sample.registry "mixed"
              Sample.world Sample_registry_well_formed) as (st & w1 & Hloop).
  exact (from_fds_one_entity_per_token Sample.host Sample.registry "mixed"
           _ Sample.world w1 st Sample_codecs_keep_collections eq_refl Hloop).
Defined.
